(** * One-shot prompt generator: a shallow embedding and its properties

    The development follows [scripts/one_shot_prompt_generator.py].

    A Python [str] is modelled as the sequence of its code points, restricted
    to U+0000..U+00FF: one [ascii] per code point.  On that range
    [str.isspace], the [\s] class of [re] and [str.lower] are the tables
    written out below.  The decoder [json.loads] belongs to the Python
    library, not to the script; it is a parameter of the entry point. *)

From Stdlib Require Import Ascii String Bool Arith Lia.
From stdpp Require Import base strings list gmap.

(** ** Characters and strings *)

Module PyStr.

(** The truth value Python gives a [str]: false for the empty one. *)
Definition truthy (s : string) : bool :=
  match s with
  | EmptyString => false
  | String _ _ => true
  end.

Definition nl : string := String "010" EmptyString.
Definition dquote : string := String "034" EmptyString.
Definition space : ascii := " ".

(** [Py_UNICODE_ISSPACE] below U+0100: TAB..CR, FS..US, SPACE, NEL, NBSP.
    Both [str.strip()] and the pattern [\s] use it. *)
Definition is_space (c : ascii) : bool :=
  let n := nat_of_ascii c in
  ((9 <=? n) && (n <=? 13)) || ((28 <=? n) && (n <=? 32))
  || (n =? 133) || (n =? 160).

(** [str.lower] on one code point below U+0100: A-Z and the Latin-1
    capitals (U+00C0..U+00DE without the multiplication sign) move up by 32. *)
Definition lower_char (c : ascii) : ascii :=
  let n := nat_of_ascii c in
  if ((65 <=? n) && (n <=? 90))
     || ((192 <=? n) && (n <=? 222) && negb (n =? 215))
  then ascii_of_nat (n + 32) else c.

Fixpoint lower (s : string) : string :=
  match s with
  | EmptyString => EmptyString
  | String c s' => String (lower_char c) (lower s')
  end.

Fixpoint lstrip (s : string) : string :=
  match s with
  | EmptyString => EmptyString
  | String c s' => if is_space c then lstrip s' else s
  end.

Fixpoint rstrip (s : string) : string :=
  match s with
  | EmptyString => EmptyString
  | String c s' =>
      match rstrip s' with
      | EmptyString => if is_space c then EmptyString else String c EmptyString
      | r => String c r
      end
  end.

(** [text.strip()] *)
Definition strip (s : string) : string := rstrip (lstrip s).

(** [re.sub(r"\s+", " ", s)]: every maximal run of whitespace becomes one
    space.  [in_run] says that the previous character belonged to a run whose
    replacement has been emitted already. *)
Fixpoint sub_ws_from (in_run : bool) (s : string) : string :=
  match s with
  | EmptyString => EmptyString
  | String c s' =>
      if is_space c
      then (if in_run then sub_ws_from true s'
            else String space (sub_ws_from true s'))
      else String c (sub_ws_from false s')
  end.

Definition sub_ws (s : string) : string := sub_ws_from false s.

(** [p in s] for strings: [p] occurs in [s] as a contiguous substring. *)
Fixpoint startswith (s p : string) : bool :=
  match p, s with
  | EmptyString, _ => true
  | String a p', String b s' => Ascii.eqb a b && startswith s' p'
  | String _ _, EmptyString => false
  end.

Fixpoint contains (s p : string) : bool :=
  startswith s p
  || match s with
     | EmptyString => false
     | String _ s' => contains s' p
     end.

(** [sep.join(parts)] *)
Fixpoint join (sep : string) (parts : list string) : string :=
  match parts with
  | [] => EmptyString
  | [x] => x
  | x :: rest => x +:+ sep +:+ join sep rest
  end.

(** [s * n] *)
Fixpoint times (s : string) (n : nat) : string :=
  match n with
  | O => EmptyString
  | S n' => s +:+ times s n'
  end.

(** [s.split(c)] for a one-character separator: the pieces between the
    occurrences of [c].  The script does not call it; it is how the lines
    of a composed section are read back. *)
Fixpoint split (c : ascii) (s : string) : list string :=
  match s with
  | EmptyString => [EmptyString]
  | String a s' =>
      if Ascii.eqb a c then EmptyString :: split c s'
      else match split c s' with
           | [] => [String a EmptyString]
           | h :: t => String a h :: t
           end
  end.

Fixpoint mem (c : ascii) (s : string) : bool :=
  match s with
  | EmptyString => false
  | String a s' => Ascii.eqb a c || mem c s'
  end.

(** What the first character, and the last one, say about whitespace;
    [d] is the answer for the empty string. *)
Definition head_space (s : string) : bool :=
  match s with
  | EmptyString => false
  | String c _ => is_space c
  end.

Fixpoint ends_space (d : bool) (s : string) : bool :=
  match s with
  | EmptyString => d
  | String c s' => ends_space (is_space c) s'
  end.

(** A string is blank when it is empty or all whitespace. *)
Fixpoint blank (s : string) : bool :=
  match s with
  | EmptyString => true
  | String c s' => is_space c && blank s'
  end.

End PyStr.

(** ** Exceptions, results and the process state *)

Inductive exn : Type :=
| SystemExit (msg : string)
| ValueError (msg : string)
| KeyError (k : string)
| RecursionError (msg : string)
| EOFError.

Inductive pyresult (A : Type) : Type :=
| Ok (a : A)
| Raise (e : exn).
Arguments Ok {A} a.
Arguments Raise {A} e.

(** Standard input as the lines still to be read, standard output as the
    chunks written so far, oldest first. *)
Record world : Type := World { stdin : list string; stdout : list string }.

(** A computation runs from a world to a world and a result. *)
Definition IO (A : Type) : Type := world -> world * pyresult A.

Definition ret {A} (a : A) : IO A := fun w => (w, Ok a).
Definition raise {A} (e : exn) : IO A := fun w => (w, Raise e).
Definition bind {A B} (m : IO A) (k : A -> IO B) : IO B :=
  fun w => match m w with
           | (w', Ok a) => k a w'
           | (w', Raise e) => (w', Raise e)
           end.
Definition lift {A} (r : pyresult A) : IO A := fun w => (w, r).

Notation "x <- m ;; k" := (bind m (fun x => k))
  (at level 100, m at next level, right associativity).
Notation "m ;;; k" := (bind m (fun _ => k))
  (at level 100, right associativity).

(** [print(s)] writes [s] and a newline. *)
Definition print (s : string) : IO unit :=
  fun w => (World (stdin w) (stdout w ++ [s +:+ PyStr.nl]), Ok tt).

(** [input(p)] writes the prompt [p] and reads one line; at end of input
    it raises [EOFError]. *)
Definition input (p : string) : IO string :=
  fun w => match stdin w with
           | [] => (World [] (stdout w ++ [p]), Raise EOFError)
           | line :: rest => (World rest (stdout w ++ [p]), Ok line)
           end.

(** The exit status of the process: 0 when [main] returns; 1 when
    [SystemExit] carries a string (printed on standard error) and when
    any other exception reaches the top level (traceback). *)
Definition exit_status {A} (r : pyresult A) : nat :=
  match r with
  | Ok _ => 0
  | Raise _ => 1
  end.

(** ** Dictionaries in insertion order *)

(** A [dict] whose iteration order matters: the items, oldest key first.
    [d[k] = v] overwrites in place when [k] is present and appends
    otherwise. *)
Abbreviation dict V := (list (string * V)%type) (only parsing).

Fixpoint dict_get {V} (d : dict V) (k : string) : option V :=
  match d with
  | [] => None
  | (k', v) :: d' => if String.eqb k' k then Some v else dict_get d' k
  end.

Fixpoint dict_set {V} (d : dict V) (k : string) (v : V) : dict V :=
  match d with
  | [] => [(k, v)]
  | (k', v') :: d' =>
      if String.eqb k' k then (k', v) :: d' else (k', v') :: dict_set d' k v
  end.

(** ** Decoded JSON *)

(** What [json.loads] returns, as far as the script looks at it: the script
    tests [isinstance(_, dict)], calls [.get] with a [str] key and passes
    the values to [str()].  A value that is not a [str] (None, a bool, a
    number, a list, a nested dict) is kept as the text [str()] gives; the
    statements below quantify over every such text. *)
Inductive json_value : Type :=
| JStr (s : string)
| JOther (shown : string).

Inductive json_top : Type :=
| JObject (d : gmap string json_value)
| JNotObject.

(** The outcomes of the decoder: a value; [json.JSONDecodeError] with its
    description, for a text that is not JSON; or another exception, which
    the library raises for some texts ([RecursionError] for one nested too
    deeply, a plain [ValueError] for an integer literal beyond the digit
    limit). *)
Inductive json_result : Type :=
| Decoded (v : json_top)
| JSONDecodeError (msg : string)
| Raised (e : exn).

(** [str(v)] *)
Definition py_str (v : json_value) : string :=
  match v with
  | JStr s => s
  | JOther shown => shown
  end.

(** ** The script *)

Record Question : Type := mkQuestion { key : string; prompt : string; hint : string }.

Definition CORE_QUESTIONS : list Question :=
  [ mkQuestion "goal"
      "What should the final deliverable accomplish?"
      "Define success in one sentence.";
    mkQuestion "audience"
      "Who is the target user or audience?"
      "Be specific (e.g., junior developers, finance analysts, parents).";
    mkQuestion "output_format"
      "What output format do you want from the AI?"
      "Examples: bullet list, JSON, markdown table, code files.";
    mkQuestion "constraints"
      "What hard constraints must be followed?"
      "Include time, budget, stack, legal, style, or platform limits.";
    mkQuestion "quality_bar"
      "How should quality be measured?"
      "Define acceptance criteria or test expectations.";
    mkQuestion "non_goals"
      "What should explicitly NOT be included?"
      "List boundaries to avoid scope creep." ].

Definition EXTRA_QUESTIONS : list Question :=
  [ mkQuestion "data_inputs"
      "What inputs/data should the solution use?"
      "Mention sources, schema, sample records, or allowed assumptions.";
    mkQuestion "edge_cases"
      "What edge cases or failure modes must be handled?"
      "Think null values, outages, security, scaling, ambiguous user input.";
    mkQuestion "tone"
      "What tone/style should the response use?"
      "Examples: concise technical, friendly coach, executive summary.";
    mkQuestion "examples"
      "Do you have examples of ideal output?"
      "Optional but high-leverage." ].

Definition KEYWORDS : dict (list string) :=
  [ ("web", ["ui_framework"; "deployment_target"]);
    ("api", ["api_style"; "auth_requirements"]);
    ("data", ["data_volume"; "privacy_requirements"]);
    ("agent", ["tool_access"; "memory_strategy"]) ].

Definition KEYWORD_QUESTIONS : dict Question :=
  [ ("ui_framework", mkQuestion "ui_framework"
       "Which UI framework or frontend stack should be used?"
       "E.g., React, Vue, Svelte, plain HTML/CSS.");
    ("deployment_target", mkQuestion "deployment_target"
       "Where will this run in production?"
       "E.g., Vercel, AWS Lambda, on-prem, local desktop.");
    ("api_style", mkQuestion "api_style"
       "What API style is required?"
       "REST, GraphQL, gRPC, webhook-first, etc.");
    ("auth_requirements", mkQuestion "auth_requirements"
       "What authentication/authorization requirements exist?"
       "OAuth, API keys, RBAC, SSO, public/no auth.");
    ("data_volume", mkQuestion "data_volume"
       "What data scale should the system handle?"
       "Approx rows/events/users and expected growth.");
    ("privacy_requirements", mkQuestion "privacy_requirements"
       "Any compliance or privacy requirements?"
       "PII handling, GDPR, HIPAA, retention limits, audit trails.");
    ("tool_access", mkQuestion "tool_access"
       "What tools can the agent call?"
       "Browser, filesystem, code interpreter, internal APIs, none.");
    ("memory_strategy", mkQuestion "memory_strategy"
       "Should the agent maintain memory between sessions?"
       "No memory, short-term only, long-term profile, vector DB, etc.") ].

Definition NOT_SPECIFIED : string := "Not specified".

(** [def normalize(text)]: [re.sub(r"\s+", " ", text.strip())] *)
Definition normalize (text : string) : string :=
  PyStr.sub_ws (PyStr.strip text).

(** [def choose_keyword_questions(summary)].  The first loop walks
    [KEYWORDS.items()] in declaration order and extends [selected_keys]; the
    second keeps the first occurrence of every key and looks it up in
    [KEYWORD_QUESTIONS], which raises [KeyError] for an unknown key. *)
Fixpoint select_keys (summary_l : string) (items : dict (list string))
    (selected_keys : list string) : list string :=
  match items with
  | [] => selected_keys
  | (keyword, keys) :: rest =>
      select_keys summary_l rest
        (if PyStr.contains summary_l keyword
         then selected_keys ++ keys else selected_keys)
  end.

Fixpoint pick_questions (selected_keys : list string) (seen : gset string)
    (result : list Question) : pyresult (list Question) :=
  match selected_keys with
  | [] => Ok result
  | k :: rest =>
      if decide (k ∈ seen) then pick_questions rest seen result
      else match dict_get KEYWORD_QUESTIONS k with
           | Some q => pick_questions rest ({[k]} ∪ seen) (result ++ [q])
           | None => Raise (KeyError k)
           end
  end.

Definition choose_keyword_questions (summary : string)
    : pyresult (list Question) :=
  let summary_l := PyStr.lower summary in
  let selected_keys := select_keys summary_l KEYWORDS [] in
  pick_questions selected_keys ∅ [].

(** [def build_question_set(summary)] *)
Definition build_question_set (summary : string) : pyresult (list Question) :=
  match choose_keyword_questions summary with
  | Ok chosen => Ok (CORE_QUESTIONS ++ chosen ++ EXTRA_QUESTIONS)
  | Raise e => Raise e
  end.

(** The bullet U+2022 of the question banner lies outside the modelled
    range; it is written as the three bytes of its UTF-8 form. *)
Definition BULLET : string := "•".

(** [def ask_questions(questions)]: the loop body, then the loop from the
    empty dict. *)
Fixpoint ask_questions_from (questions : list Question)
    (answers : gmap string json_value) : IO (gmap string json_value) :=
  match questions with
  | [] => ret answers
  | q :: rest =>
      print (PyStr.nl +:+ BULLET +:+ " " +:+ prompt q) ;;;
      print ("  Hint: " +:+ hint q) ;;;
      line <- input "  Answer: " ;;
      let value := PyStr.strip line in
      ask_questions_from rest
        (<[key q := JStr (if PyStr.truthy value then value else NOT_SPECIFIED)]>
           answers)
  end.

Definition ask_questions (questions : list Question)
    : IO (gmap string json_value) :=
  ask_questions_from questions ∅.

(** [def compose_prompt(summary, answers)] *)
Definition context_line (item : string * string) : string :=
  "- " +:+ fst item +:+ ": " +:+ snd item.

Definition context_lines (answers : dict string) : string :=
  PyStr.join PyStr.nl (map context_line answers).

Definition compose_prompt (summary : string) (answers : dict string) : string :=
  let sections :=
    [ "You are an elite product + engineering execution assistant.";
      "## Project Summary";
      summary;
      "## Clarified Requirements";
      context_lines answers;
      "## Your Task";
      "Produce the best possible solution for this request in one response.";
      "### Must Do";
      "1. Restate the objective and constraints in a compact spec.";
      "2. Propose an execution plan optimized for speed and quality.";
      "3. Deliver the requested output in the required format.";
      "4. Address edge cases, risks, and trade-offs explicitly.";
      "5. Include validation steps/tests against the quality bar.";
      "6. Respect non-goals and avoid unnecessary scope expansion.";
      "### Output Requirements";
      "- Be concrete and implementation-ready.";
      "- Use assumptions only when unavoidable, and label them clearly.";
      "- If information is missing, provide a " +:+ PyStr.dquote
        +:+ "best default" +:+ PyStr.dquote +:+ " and explain why.";
      "- Keep the response efficient, high-signal, and free of fluff." ] in
  PyStr.join (PyStr.nl +:+ PyStr.nl) sections.

(** The parsed command line: the positional [summary] and the optional
    [--answers-json]. *)
Record Namespace : Type :=
  mkArgs { arg_summary : string; arg_answers_json : option string }.

(** [answers.get(k, "Not specified")], coerced with [str] and normalised. *)
Definition answer_for (answers : gmap string json_value) (k : string) : string :=
  normalize (py_str (default (JStr NOT_SPECIFIED) (answers !! k))).

(** The dict comprehension of [main]:
    [{q.key: normalize(str(answers.get(q.key, "Not specified"))) for q in questions}] *)
Definition final_answers (questions : list Question)
    (answers : gmap string json_value) : dict string :=
  fold_left (fun d q => dict_set d (key q) (answer_for answers (key q)))
            questions [].

Definition BANNER : string := PyStr.times "=" 80.

Section EntryPoint.

(** [json.loads] of the Python library. *)
Variable json_loads : string -> json_result.

(** The [try] block of [main]: only [json.JSONDecodeError] is caught and
    turned into [SystemExit]; the [ValueError] raised for a value that is
    not a dict is not a [JSONDecodeError] and propagates, as does any other
    exception of the decoder. *)
Definition load_answers (payload : string) : IO (gmap string json_value) :=
  match json_loads payload with
  | JSONDecodeError exc =>
      raise (SystemExit ("Invalid JSON for --answers-json: " +:+ exc))
  | Decoded (JObject answers) => ret answers
  | Decoded JNotObject =>
      raise (ValueError "answers-json must decode to an object")
  | Raised e => raise e
  end.

(** [if args.answers_json:] holds for a string that is present and not
    empty. *)
Definition batch_payload (args : Namespace) : option string :=
  match arg_answers_json args with
  | Some payload => if PyStr.truthy payload then Some payload else None
  | None => None
  end.

(** [def main()] *)
Definition main (args : Namespace) : IO unit :=
  let summary := normalize (arg_summary args) in
  if negb (PyStr.truthy summary)
  then raise (SystemExit "Summary cannot be empty.")
  else
    questions <- lift (build_question_set summary) ;;
    answers <-
      match batch_payload args with
      | Some payload => load_answers payload
      | None =>
          print "I will ask targeted questions to sharpen your brief before generating a one-shot prompt." ;;;
          ask_questions questions
      end ;;
    let final := final_answers questions answers in
    let prompt := compose_prompt summary final in
    print (PyStr.nl +:+ BANNER) ;;;
    print "PERFECT 1-SHOT PROMPT" ;;;
    print BANNER ;;;
    print prompt.

End EntryPoint.

(** ** Vocabulary of the statements *)

(** [keyword in summary.lower()] *)
Definition matches (summary keyword : string) : bool :=
  PyStr.contains (PyStr.lower summary) keyword.

(** The entries of the keyword table that a summary triggers, in the
    order of the table. *)
Definition matched_items (summary : string) : dict (list string) :=
  filter (λ item, matches summary item.1 = true) KEYWORDS.

(** The registry entries of a list of keys, in the order of the keys. *)
Definition questions_for (keys : list string) : list Question :=
  omap (dict_get KEYWORD_QUESTIONS) keys.

(** The supplemental questions a keyword stands for. *)
Definition keyword_questions (keyword : string) : list Question :=
  questions_for (default [] (dict_get KEYWORDS keyword)).

(** Deduplication that keeps the first occurrence, as the specification
    words it: an element stays, and its later copies go. *)
Fixpoint dedup_keep_first (l : list string) : list string :=
  match l with
  | [] => []
  | x :: l' => x :: filter (λ y, y ≠ x) (dedup_keep_first l')
  end.

(** The supplemental part of the resolved sequence as the specification
    describes it: the keys of the matched keywords in table order, within
    a keyword in declared order, deduplicated keeping the first. *)
Definition spec_supplemental (summary : string) : list Question :=
  questions_for (dedup_keep_first (concat (matched_items summary).*2)).

Definition count_key (k : string) (questions : list Question) : nat :=
  length (filter (λ q, key q = k) questions).

(** The candidate keys for given answers to the four substring tests. *)
Definition keys_by_flags (web api data agent : bool) : list string :=
  (if web then ["ui_framework"; "deployment_target"] else [])
  ++ (if api then ["api_style"; "auth_requirements"] else [])
  ++ (if data then ["data_volume"; "privacy_requirements"] else [])
  ++ (if agent then ["tool_access"; "memory_strategy"] else []).

(** What a successful run writes after the questions: the banner, the
    title, the banner and the composed prompt, one [print] each. *)
Definition report (prompt : string) : list string :=
  [ (PyStr.nl +:+ BANNER) +:+ PyStr.nl;
    "PERFECT 1-SHOT PROMPT" +:+ PyStr.nl;
    BANNER +:+ PyStr.nl;
    prompt +:+ PyStr.nl ].

(** The value the specification gives a key in batch mode when only missing
    keys are defaulted: the sentinel for a missing key, the normalised text
    of the payload's value otherwise. *)
Definition requirement (answers : gmap string json_value) (k : string) : string :=
  match answers !! k with
  | None => NOT_SPECIFIED
  | Some v => normalize (py_str v)
  end.

(** Two payloads agree on a key when both lack it or both give it values
    with the same normalised text. *)
Definition agree_on (keys : list string) (a1 a2 : gmap string json_value) : Prop :=
  ∀ k, k ∈ keys ->
    (λ v, normalize (py_str v)) <$> (a1 !! k)
    = (λ v, normalize (py_str v)) <$> (a2 !! k).

(** A payload that does not decode to a key-value mapping: the decoder
    raises on it, or what it decodes to is not a dict. *)
Definition malformed (json_loads : string -> json_result) (payload : string) : Prop :=
  ∀ answers, json_loads payload ≠ Decoded (JObject answers).

(** A run failed before producing anything: an exception reached the top
    level (exit status 1, its message on standard error), nothing was
    written to standard output and no line of input was consumed. *)
Definition failed_with (e : exn) (w : world) (run : world * pyresult unit) : Prop :=
  run = (w, Raise e) ∧ exit_status run.2 = 1.

(** ** Sample payloads *)

Module Sample.

(** The text of a JSON object whose members are strings without escapes,
    and the dict it decodes to. *)
Definition member (item : string * string) : string :=
  PyStr.dquote +:+ item.1 +:+ PyStr.dquote +:+ ": "
  +:+ PyStr.dquote +:+ item.2 +:+ PyStr.dquote.

Definition object_text (items : list (string * string)) : string :=
  "{" +:+ PyStr.join ", " (map member items) +:+ "}".

Definition object_value (items : list (string * string))
    : gmap string json_value :=
  list_to_map (prod_map id JStr <$> items).

Definition blank_goal : list (string * string) := [("goal", EmptyString)].

Definition partial : list (string * string) :=
  [("goal", "Track  tasks"); ("tone", "plain")].

Definition partial_extra : list (string * string) :=
  [("tone", " plain "); ("colour", "blue"); ("goal", "Track tasks")].

Definition complete : list (string * string) :=
  [ ("goal", "Track tasks"); ("audience", "Small teams");
    ("output_format", "code files"); ("constraints", "Python only");
    ("quality_bar", "unit tests pass"); ("non_goals", "no billing");
    ("ui_framework", "React"); ("deployment_target", "AWS Lambda");
    ("api_style", "REST"); ("auth_requirements", "API keys");
    ("data_inputs", "none"); ("edge_cases", "outages");
    ("tone", "concise technical"); ("examples", "none") ].

(** [json.loads] on the payloads above and on the array [[1, 2]]; the
    empty string and text that starts with no JSON value are reported by
    the library with the message below, which stands for every string
    outside the table. *)
Definition table : dict json_result :=
  [ (object_text blank_goal, Decoded (JObject (object_value blank_goal)));
    (object_text partial, Decoded (JObject (object_value partial)));
    (object_text partial_extra, Decoded (JObject (object_value partial_extra)));
    (object_text complete, Decoded (JObject (object_value complete)));
    ("[1, 2]", Decoded JNotObject) ].

Definition json_loads (s : string) : json_result :=
  default (JSONDecodeError "Expecting value: line 1 column 1 (char 0)")
          (dict_get table s).

Definition lines (n : nat) (line : string) : list string := replicate n line.

End Sample.

(** ** Vocabulary of the further statements *)

(** Whitespace in a string is single-spaced when every whitespace character
    is the space character and no two of them are adjacent; [after_space]
    says that the previous character was one. *)
Fixpoint single_spaced (after_space : bool) (s : string) : bool :=
  match s with
  | EmptyString => true
  | String c s' =>
      if PyStr.is_space c
      then negb after_space && Ascii.eqb c PyStr.space && single_spaced true s'
      else single_spaced false s'
  end.

(** A string in normal form: no whitespace at either end, single-spaced
    inside. *)
Definition canonical (s : string) : bool :=
  negb (PyStr.head_space s) && negb (PyStr.ends_space false s)
  && single_spaced false s.

(** The characters of a string that are not whitespace, in order. *)
Fixpoint solid (s : string) : string :=
  match s with
  | EmptyString => EmptyString
  | String c s' => if PyStr.is_space c then solid s' else String c (solid s')
  end.

(** No character of the string is whitespace. *)
Fixpoint spaceless (s : string) : bool :=
  match s with
  | EmptyString => true
  | String c s' => negb (PyStr.is_space c) && spaceless s'
  end.

(** What [ask_questions] writes for one question: the two printed lines and
    the prompt of [input]. *)
Definition question_chunks (q : Question) : list string :=
  [ (PyStr.nl +:+ BULLET +:+ " " +:+ prompt q) +:+ PyStr.nl;
    ("  Hint: " +:+ hint q) +:+ PyStr.nl;
    "  Answer: " ].

Definition transcript (questions : list Question) : list string :=
  concat (map question_chunks questions).

(** The answer [ask_questions] stores for a line the user typed. *)
Definition typed_answer (line : string) : string :=
  let value := PyStr.strip line in
  if PyStr.truthy value then value else NOT_SPECIFIED.

(** The dict [ask_questions] builds from the lines typed for its questions,
    first question first. *)
Fixpoint collect (questions : list Question) (lines : list string)
    (answers : gmap string json_value) : gmap string json_value :=
  match questions, lines with
  | q :: questions', line :: lines' =>
      collect questions' lines' (<[key q := JStr (typed_answer line)]> answers)
  | _, _ => answers
  end.


(** The line [main] prints before it asks. *)
Definition INTRO : string :=
  "I will ask targeted questions to sharpen your brief before generating a one-shot prompt.".

(** ** Normalisation *)

Section NormalizeFacts.
Import PyStr.

Lemma lstrip_head s : head_space (lstrip s) = false.
Proof.
  induction s as [|c s IH]; simpl; [reflexivity|].
  destruct (is_space c) eqn:E; [exact IH | simpl; exact E].
Qed.

Lemma lstrip_fixed s : head_space s = false -> lstrip s = s.
Proof. destruct s as [|c s]; simpl; [reflexivity | intros ->; reflexivity]. Qed.

Lemma rstrip_head s : head_space s = false -> head_space (rstrip s) = false.
Proof.
  destruct s as [|c s]; simpl; [reflexivity|]. intros E.
  destruct (rstrip s); simpl; rewrite ?E; simpl; auto.
Qed.

Lemma ends_space_cons d c s :
  ends_space d (String c s) = ends_space (is_space c) s.
Proof. reflexivity. Qed.

Lemma ends_space_nonempty d d' c s :
  ends_space d (String c s) = ends_space d' (String c s).
Proof. reflexivity. Qed.

Lemma rstrip_ends s : ends_space false (rstrip s) = false.
Proof.
  induction s as [|c s IH]; simpl; [reflexivity|].
  destruct (rstrip s) as [|c2 r] eqn:E.
  - destruct (is_space c) eqn:Ec; simpl; auto.
  - rewrite ends_space_cons. rewrite (ends_space_nonempty _ false). exact IH.
Qed.

Lemma rstrip_fixed s : ends_space false s = false -> rstrip s = s.
Proof.
  induction s as [|c s IH]; simpl; [reflexivity|]. intros E.
  destruct s as [|c2 s'].
  - simpl in *. rewrite E. reflexivity.
  - rewrite (ends_space_nonempty _ false) in E. rewrite (IH E). reflexivity.
Qed.

Lemma strip_fixed s :
  head_space s = false -> ends_space false s = false -> strip s = s.
Proof.
  intros Hh He. unfold strip. rewrite (lstrip_fixed _ Hh). apply rstrip_fixed, He.
Qed.

Lemma strip_head s : head_space (strip s) = false.
Proof. apply rstrip_head, lstrip_head. Qed.

Lemma strip_ends s : ends_space false (strip s) = false.
Proof. apply rstrip_ends. Qed.

Lemma sub_ws_from_idem b s :
  sub_ws_from b (sub_ws_from b s) = sub_ws_from b s.
Proof.
  revert b. induction s as [|c s IH]; intros b; simpl; [reflexivity|].
  destruct (is_space c) eqn:Ec.
  - destruct b; [apply IH|]. simpl. rewrite IH. reflexivity.
  - simpl. rewrite Ec, IH. reflexivity.
Qed.

Lemma sub_ws_head s : head_space s = false -> head_space (sub_ws s) = false.
Proof.
  destruct s as [|c s]; simpl; [reflexivity|]. intros E.
  unfold sub_ws; simpl. rewrite E. simpl. exact E.
Qed.

Lemma sub_ws_from_ends b d s :
  (b = true -> d = true) ->
  ends_space d (sub_ws_from b s) = ends_space d s.
Proof.
  revert b d. induction s as [|c s IH]; intros b d Hbd; simpl; [reflexivity|].
  destruct (is_space c) eqn:Ec.
  - destruct b.
    + rewrite IH by auto. rewrite (Hbd eq_refl). reflexivity.
    + simpl. apply IH. auto.
  - simpl. rewrite Ec. apply IH. discriminate.
Qed.

Lemma sub_ws_ends s :
  ends_space false s = false -> ends_space false (sub_ws s) = false.
Proof.
  intros E. unfold sub_ws. rewrite sub_ws_from_ends; [exact E | discriminate].
Qed.

(** Whitespace that survives [re.sub] is the replacement character. *)
Lemma sub_ws_from_only_space b s c :
  mem c (sub_ws_from b s) = true -> is_space c = true -> c = space.
Proof.
  revert b. induction s as [|a s IH]; intros b H Hc; cbn [sub_ws_from] in H;
    [discriminate|].
  destruct (is_space a) eqn:Ea; [destruct b|]; cbn [mem] in H;
    try (apply orb_true_iff in H as [H|H]); eauto.
  - apply Ascii.eqb_eq in H. congruence.
  - apply Ascii.eqb_eq in H. congruence.
Qed.

Lemma lstrip_blank s : blank s = true -> lstrip s = EmptyString.
Proof.
  induction s as [|c s IH]; simpl; [reflexivity|].
  intros [-> H]%andb_true_iff. apply IH, H.
Qed.

Lemma lstrip_empty_blank s : lstrip s = EmptyString -> blank s = true.
Proof.
  induction s as [|c s IH]; simpl; [reflexivity|].
  destruct (is_space c); [exact IH | discriminate].
Qed.

Lemma rstrip_empty s :
  head_space s = false -> rstrip s = EmptyString -> s = EmptyString.
Proof.
  destruct s as [|c s]; simpl; [reflexivity|]. intros ->.
  destruct (rstrip s); discriminate.
Qed.

Lemma sub_ws_empty s :
  head_space s = false -> sub_ws s = EmptyString -> s = EmptyString.
Proof.
  destruct s as [|c s]; simpl; [reflexivity|]. unfold sub_ws; simpl.
  intros ->. discriminate.
Qed.

(** The strings that normalise to the empty string are the blank ones. *)
Lemma normalize_empty_iff s : normalize s = EmptyString <-> blank s = true.
Proof.
  split.
  - intros H. apply sub_ws_empty in H; [|apply strip_head].
    apply rstrip_empty in H; [|apply lstrip_head].
    apply lstrip_empty_blank, H.
  - intros H. unfold normalize, strip. rewrite (lstrip_blank _ H). reflexivity.
Qed.

Lemma normalize_head s : head_space (normalize s) = false.
Proof. apply sub_ws_head, strip_head. Qed.

Lemma normalize_ends s : ends_space false (normalize s) = false.
Proof. apply sub_ws_ends, strip_ends. Qed.

Lemma normalize_no_newline s : mem "010" (normalize s) = false.
Proof.
  destruct (mem "010" (normalize s)) eqn:E; [|reflexivity].
  apply sub_ws_from_only_space in E; [discriminate | reflexivity].
Qed.

End NormalizeFacts.

(** C8. Normalisation is idempotent: for every string [s],
    [normalize (normalize s) = normalize s], where [normalize] trims leading
    and trailing whitespace and collapses every run of whitespace to a single
    space. *)
Theorem normalize_idempotent (s : string) :
  normalize (normalize s) = normalize s.
Proof.
  unfold normalize at 1.
  rewrite strip_fixed by (apply normalize_head || apply normalize_ends).
  unfold normalize, PyStr.sub_ws. apply sub_ws_from_idem.
Qed.

(** ** Question selection *)

Section Selection.

Lemma select_keys_flags summary :
  select_keys (PyStr.lower summary) KEYWORDS [] =
  keys_by_flags (matches summary "web") (matches summary "api")
                (matches summary "data") (matches summary "agent").
Proof.
  unfold KEYWORDS, keys_by_flags, matches. cbn [select_keys].
  generalize (PyStr.contains (PyStr.lower summary) "web"),
             (PyStr.contains (PyStr.lower summary) "api"),
             (PyStr.contains (PyStr.lower summary) "data"),
             (PyStr.contains (PyStr.lower summary) "agent").
  intros [] [] [] []; reflexivity.
Qed.

Lemma matched_items_flags summary :
  concat (matched_items summary).*2 =
  keys_by_flags (matches summary "web") (matches summary "api")
                (matches summary "data") (matches summary "agent").
Proof.
  unfold matched_items, KEYWORDS, keys_by_flags.
  rewrite !filter_cons, filter_nil. cbn [fst].
  destruct (matches summary "web"), (matches summary "api"),
           (matches summary "data"), (matches summary "agent");
    repeat case_decide; try congruence; reflexivity.
Qed.

Lemma matched_items_length summary :
  length (matched_items summary) =
  Nat.b2n (matches summary "web") + Nat.b2n (matches summary "api")
  + Nat.b2n (matches summary "data") + Nat.b2n (matches summary "agent").
Proof.
  unfold matched_items, KEYWORDS.
  rewrite !filter_cons, filter_nil. cbn [fst].
  destruct (matches summary "web"), (matches summary "api"),
           (matches summary "data"), (matches summary "agent");
    repeat case_decide; try congruence; reflexivity.
Qed.

(** Whatever the four tests answer, the second loop finds every selected
    key in the registry and drops nothing. *)
Lemma pick_by_flags web api data agent :
  let keys := keys_by_flags web api data agent in
  pick_questions keys ∅ [] = Ok (questions_for keys)
  ∧ map key (questions_for keys) = keys
  ∧ dedup_keep_first keys = keys
  ∧ NoDup (map key (CORE_QUESTIONS ++ questions_for keys ++ EXTRA_QUESTIONS)).
Proof.
  destruct web, api, data, agent; cbv zeta;
    (split; [vm_compute; reflexivity|]);
    (split; [vm_compute; reflexivity|]);
    (split; [vm_compute; reflexivity|]);
    apply (bool_decide_unpack _); vm_compute; exact I.
Qed.

Lemma choose_keyword_questions_eq summary :
  choose_keyword_questions summary =
  Ok (questions_for (concat (matched_items summary).*2)).
Proof.
  unfold choose_keyword_questions. cbv zeta.
  rewrite select_keys_flags, matched_items_flags.
  apply pick_by_flags.
Qed.

Lemma build_question_set_eq summary :
  build_question_set summary =
  Ok (CORE_QUESTIONS ++ questions_for (concat (matched_items summary).*2)
      ++ EXTRA_QUESTIONS).
Proof.
  unfold build_question_set. rewrite choose_keyword_questions_eq. reflexivity.
Qed.

Lemma dict_get_elem_of {V} (d : dict V) k v :
  dict_get d k = Some v -> (k, v) ∈ d.
Proof.
  induction d as [|[k' v'] d IH]; simpl; [discriminate|].
  destruct (String.eqb_spec k' k) as [->|_].
  - intros [= ->]. left.
  - intros H. right. apply IH, H.
Qed.

(** Every registry entry is filed under its own key. *)
Lemma registry_keys k q :
  dict_get KEYWORD_QUESTIONS k = Some q -> key q = k.
Proof.
  intros H. apply dict_get_elem_of in H.
  assert (HF : Forall (λ item, key item.2 = item.1) KEYWORD_QUESTIONS)
    by (repeat constructor).
  rewrite Forall_forall in HF. symmetry. symmetry. exact (HF _ H).
Qed.

Lemma resolved_keys_NoDup summary questions :
  build_question_set summary = Ok questions -> NoDup (map key questions).
Proof.
  rewrite build_question_set_eq. intros [= <-].
  rewrite matched_items_flags. apply pick_by_flags.
Qed.

End Selection.

(** C7. For every summary that contains none of the recognised keywords as a
    case-insensitive substring, the resolved question sequence is exactly the
    core questions followed by the extra questions: nothing is inserted. *)
Theorem no_keyword_core_then_extra (summary : string) :
  Forall (λ keyword, matches summary keyword = false) KEYWORDS.*1 ->
  choose_keyword_questions summary = Ok []
  ∧ build_question_set summary = Ok (CORE_QUESTIONS ++ EXTRA_QUESTIONS).
Proof.
  intros H. cbn in H.
  apply Forall_cons in H as [Hweb H]. apply Forall_cons in H as [Hapi H].
  apply Forall_cons in H as [Hdata H]. apply Forall_cons in H as [Hagent _].
  rewrite build_question_set_eq, choose_keyword_questions_eq, matched_items_flags.
  rewrite Hweb, Hapi, Hdata, Hagent. split; reflexivity.
Qed.

Lemma no_keyword_core_then_extra_witness :
  choose_keyword_questions "Write a haiku about autumn rain" = Ok []
  ∧ build_question_set "Write a haiku about autumn rain"
    = Ok (CORE_QUESTIONS ++ EXTRA_QUESTIONS).
Proof.
  apply (no_keyword_core_then_extra "Write a haiku about autumn rain").
  repeat constructor.
Defined.

(** C6. For every summary that contains the keyword "web" as a
    case-insensitive substring, the resolved question sequence holds the two
    web questions, [ui_framework] then [deployment_target], each exactly
    once, after all the core questions and before all the extra questions. *)
Theorem web_questions_once_between (summary : string) :
  matches summary "web" = true ->
  map key (keyword_questions "web") = ["ui_framework"; "deployment_target"]
  ∧ ∃ others questions,
      build_question_set summary = Ok questions
      ∧ questions = CORE_QUESTIONS ++ keyword_questions "web" ++ others
                    ++ EXTRA_QUESTIONS
      ∧ count_key "ui_framework" questions = 1
      ∧ count_key "deployment_target" questions = 1.
Proof.
  intros Hweb. split; [reflexivity|].
  rewrite build_question_set_eq, matched_items_flags, Hweb.
  destruct (matches summary "api"), (matches summary "data"),
           (matches summary "agent");
    eexists (questions_for (keys_by_flags false _ _ _)), _;
    (split; [reflexivity|]); (split; [reflexivity|]);
    split; vm_compute; reflexivity.
Qed.

Lemma web_questions_once_between_witness :
  map key (keyword_questions "web") = ["ui_framework"; "deployment_target"]
  ∧ ∃ others questions,
      build_question_set "A WEB shop for used books" = Ok questions
      ∧ questions = CORE_QUESTIONS ++ keyword_questions "web" ++ others
                    ++ EXTRA_QUESTIONS
      ∧ count_key "ui_framework" questions = 1
      ∧ count_key "deployment_target" questions = 1.
Proof.
  apply (web_questions_once_between "A WEB shop for used books").
  reflexivity.
Defined.

(** C5. For every summary that contains several recognised keywords, the
    resolved question sequence is the core questions, then the supplemental
    questions of the matched keywords (keywords in the order of the table,
    keys in their declared order, deduplicated by key keeping the first
    occurrence), then the extra questions; every key of a matched keyword is
    there with its registry entry, and no key occurs twice. *)
Theorem multi_keyword_selection (summary : string) :
  2 <= length (matched_items summary) ->
  ∃ questions,
    build_question_set summary = Ok questions
    ∧ questions = CORE_QUESTIONS ++ spec_supplemental summary ++ EXTRA_QUESTIONS
    ∧ map key (spec_supplemental summary)
      = dedup_keep_first (concat (matched_items summary).*2)
    ∧ (∀ keyword keys k,
         (keyword, keys) ∈ matched_items summary -> k ∈ keys ->
         ∃ q, dict_get KEYWORD_QUESTIONS k = Some q ∧ q ∈ questions)
    ∧ NoDup (map key questions).
Proof.
  intros _. eexists. split; [apply build_question_set_eq|].
  unfold spec_supplemental.
  destruct (pick_by_flags (matches summary "web") (matches summary "api")
              (matches summary "data") (matches summary "agent"))
    as (_ & Hkeys & Hdedup & Hnodup).
  cbv zeta in *. rewrite <- matched_items_flags in *.
  rewrite Hdedup. repeat split; [exact Hkeys | | exact Hnodup].
  intros keyword keys k Hitem Hk.
  assert (Hin : k ∈ map key (questions_for (concat (matched_items summary).*2))).
  { rewrite Hkeys. apply list_elem_of_In, in_concat. exists keys.
    split; apply list_elem_of_In; [|exact Hk].
    apply list_elem_of_fmap. exists (keyword, keys). split; [reflexivity | exact Hitem]. }
  apply list_elem_of_fmap in Hin as (q & -> & Hq).
  exists q. split.
  - unfold questions_for in Hq. apply list_elem_of_omap in Hq as (k' & _ & Hk').
    rewrite (registry_keys _ _ Hk'). exact Hk'.
  - rewrite !elem_of_app. auto.
Qed.

(** ** The entry point *)

Section Runs.

Variable json_loads : string -> json_result.

Lemma truthy_false s : PyStr.truthy s = false <-> s = EmptyString.
Proof. destruct s; simpl; split; congruence. Qed.

Lemma truthy_true s : PyStr.truthy s = true <-> s ≠ EmptyString.
Proof. destruct s; simpl; split; congruence. Qed.

Lemma batch_payload_Some args payload :
  arg_answers_json args = Some payload -> payload ≠ EmptyString ->
  batch_payload args = Some payload.
Proof.
  intros H Hne. unfold batch_payload. rewrite H.
  apply truthy_true in Hne. rewrite Hne. reflexivity.
Qed.

Lemma main_empty_summary args w :
  normalize (arg_summary args) = EmptyString ->
  main json_loads args w = (w, Raise (SystemExit "Summary cannot be empty.")).
Proof.
  intros H. unfold main. cbv zeta. rewrite H. reflexivity.
Qed.

Lemma main_batch args payload w :
  normalize (arg_summary args) ≠ EmptyString ->
  batch_payload args = Some payload ->
  ∃ questions,
    build_question_set (normalize (arg_summary args)) = Ok questions
    ∧ NoDup (map key questions)
    ∧ main json_loads args w =
      match json_loads payload with
      | JSONDecodeError exc =>
          (w, Raise (SystemExit ("Invalid JSON for --answers-json: " +:+ exc)))
      | Decoded JNotObject =>
          (w, Raise (ValueError "answers-json must decode to an object"))
      | Raised e => (w, Raise e)
      | Decoded (JObject answers) =>
          (World (stdin w)
             (stdout w ++ report (compose_prompt (normalize (arg_summary args))
                                    (final_answers questions answers))),
           Ok tt)
      end.
Proof.
  intros Hs Hp. apply truthy_true in Hs.
  eexists. split; [apply build_question_set_eq|].
  split; [eapply resolved_keys_NoDup, build_question_set_eq|].
  unfold main. cbv zeta. rewrite Hs, Hp, build_question_set_eq.
  cbv [negb bind lift load_answers].
  destruct (json_loads payload) as [[answers|]|exc|e]; cbv [raise ret];
    try reflexivity.
  cbv [print stdin stdout]. destruct w as [i o]. cbn [stdin stdout].
  unfold report. rewrite <- !app_assoc. reflexivity.
Qed.

End Runs.

(** C3. For every summary argument that normalises to the empty string (an
    empty or whitespace-only summary), the run ends with [SystemExit] and the
    message "Summary cannot be empty.": exit status 1, before any question is
    printed or any answer read, and with nothing written to standard
    output. *)
Theorem empty_summary_fails_first
    (json_loads : string -> json_result) (args : Namespace) (w : world) :
  normalize (arg_summary args) = EmptyString ->
  PyStr.blank (arg_summary args) = true
  ∧ failed_with (SystemExit "Summary cannot be empty.") w (main json_loads args w).
Proof.
  intros H. split; [apply normalize_empty_iff, H|].
  unfold failed_with. rewrite (main_empty_summary _ _ _ H). split; reflexivity.
Qed.

Lemma empty_summary_fails_first_witness :
  let args := mkArgs (String "009" "  ") (Some (Sample.object_text Sample.complete)) in
  let w := World (Sample.lines 3 "soon") [] in
  PyStr.blank (arg_summary args) = true
  ∧ failed_with (SystemExit "Summary cannot be empty.") w
      (main Sample.json_loads args w).
Proof.
  cbv zeta.
  apply (empty_summary_fails_first Sample.json_loads
           (mkArgs (String "009" "  ") (Some (Sample.object_text Sample.complete)))
           (World (Sample.lines 3 "soon") [])).
  reflexivity.
Defined.

(** C2, as the code has it. For every payload string that is not empty and
    that the decoder rejects with [json.JSONDecodeError], the run ends with
    [SystemExit]: exit status 1, nothing written to standard output, no
    input read.  With a summary that is not blank the message is
    "Invalid JSON for --answers-json: " followed by the decoder's
    description of the failure (a blank summary is reported first).  An
    empty payload string is taken for an absent one: the run is the run
    without [--answers-json]. *)
Theorem malformed_payload_fails
    (json_loads : string -> json_result) (args : Namespace)
    (payload exc : string) (w : world) :
  arg_answers_json args = Some payload ->
  payload ≠ EmptyString ->
  json_loads payload = JSONDecodeError exc ->
  (∃ msg, failed_with (SystemExit msg) w (main json_loads args w))
  ∧ (normalize (arg_summary args) ≠ EmptyString ->
     failed_with (SystemExit ("Invalid JSON for --answers-json: " +:+ exc))
       w (main json_loads args w))
  ∧ (∀ summary w',
       main json_loads (mkArgs summary (Some EmptyString)) w'
       = main json_loads (mkArgs summary None) w').
Proof.
  intros Hp Hne Hbad.
  assert (Hmain : normalize (arg_summary args) ≠ EmptyString ->
     failed_with (SystemExit ("Invalid JSON for --answers-json: " +:+ exc))
       w (main json_loads args w)).
  { intros Hs.
    destruct (main_batch json_loads args payload w Hs
                (batch_payload_Some _ _ Hp Hne)) as (questions & _ & _ & Hrun).
    unfold failed_with. rewrite Hrun, Hbad. split; reflexivity. }
  split; [|split; [exact Hmain | reflexivity]].
  destruct (decide (normalize (arg_summary args) = EmptyString)) as [He|Hs].
  - eexists. unfold failed_with. rewrite (main_empty_summary _ _ _ He).
    split; reflexivity.
  - eexists. exact (Hmain Hs).
Qed.

Lemma malformed_payload_fails_witness :
  let args := mkArgs "Build a web API for tracking tasks"
                (Some "goal=track tasks") in
  let w := World (Sample.lines 3 "soon") [] in
  (∃ msg, failed_with (SystemExit msg) w (main Sample.json_loads args w))
  ∧ (normalize (arg_summary args) ≠ EmptyString ->
     failed_with
       (SystemExit ("Invalid JSON for --answers-json: "
                    +:+ "Expecting value: line 1 column 1 (char 0)"))
       w (main Sample.json_loads args w))
  ∧ (∀ summary w',
       main Sample.json_loads (mkArgs summary (Some EmptyString)) w'
       = main Sample.json_loads (mkArgs summary None) w').
Proof.
  cbv zeta.
  apply (malformed_payload_fails Sample.json_loads
           (mkArgs "Build a web API for tracking tasks" (Some "goal=track tasks"))
           "goal=track tasks" "Expecting value: line 1 column 1 (char 0)"
           (World (Sample.lines 3 "soon") [])).
  - reflexivity.
  - discriminate.
  - vm_compute. reflexivity.
Defined.

(** C2 as stated fails at the empty payload: [--answers-json] with the empty
    string is a supplied payload that is not valid JSON, yet the run does not
    fail.  The test [if args.answers_json:] takes it for an absent payload,
    the questions are asked on the terminal and the prompt is composed. *)
Lemma empty_payload_runs_interactively :
  let args := mkArgs "Plan a picnic" (Some EmptyString) in
  let w := World (Sample.lines 10 "soon") [] in
  malformed Sample.json_loads EmptyString
  ∧ (main Sample.json_loads args w).2 = Ok tt
  ∧ exit_status (main Sample.json_loads args w).2 = 0
  ∧ stdin (main Sample.json_loads args w).1 = []
  ∧ ¬ ∃ e, failed_with e w (main Sample.json_loads args w).
Proof.
  cbv zeta.
  assert (Hrun : (main Sample.json_loads (mkArgs "Plan a picnic" (Some EmptyString))
                    (World (Sample.lines 10 "soon") [])).2 = Ok tt)
    by (vm_compute; reflexivity).
  split; [intros answers; vm_compute; discriminate|].
  split; [exact Hrun|].
  split; [rewrite Hrun; reflexivity|].
  split; [vm_compute; reflexivity|].
  intros (e & Hfail & _). apply (f_equal snd) in Hfail.
  rewrite Hrun in Hfail. change (Ok tt = Raise e) in Hfail. congruence.
Qed.

(** ** The answer set *)

Section Answers.

Lemma dict_set_fresh {V} (d : dict V) k v :
  k ∉ d.*1 -> dict_set d k v = d ++ [(k, v)].
Proof.
  induction d as [|[k' v'] d IH]; simpl; [reflexivity|].
  intros Hk. apply not_elem_of_cons in Hk as [Hne Hk].
  destruct (String.eqb_spec k' k) as [->|_]; [congruence|].
  rewrite IH by exact Hk. reflexivity.
Qed.

Lemma fold_dict_set_fresh {V} (f : Question -> V) questions (d : dict V) :
  NoDup (d.*1 ++ map key questions) ->
  fold_left (λ d q, dict_set d (key q) (f q)) questions d
  = d ++ map (λ q, (key q, f q)) questions.
Proof.
  revert d. induction questions as [|q questions IH]; intros d Hnd; simpl.
  - rewrite app_nil_r. reflexivity.
  - simpl in Hnd. apply NoDup_app in Hnd as (Hd & Hsep & Hq).
    apply NoDup_cons in Hq as [Hq Hqs].
    rewrite dict_set_fresh by (intros Hin; apply (Hsep _ Hin); left).
    rewrite IH.
    + rewrite <- app_assoc. reflexivity.
    + rewrite fmap_app. simpl. rewrite <- app_assoc. simpl.
      apply NoDup_app. split; [exact Hd|]. split.
      * intros k Hk Hin. apply (Hsep _ Hk). exact Hin.
      * apply NoDup_cons. split; assumption.
Qed.

(** With distinct keys the comprehension lists the questions in order. *)
Lemma final_answers_items questions answers :
  NoDup (map key questions) ->
  final_answers questions answers
  = map (λ q, (key q, answer_for answers (key q))) questions.
Proof.
  intros Hnd. unfold final_answers.
  rewrite (fold_dict_set_fresh (λ q, answer_for answers (key q))); auto.
Qed.

Lemma final_answers_ext questions a1 a2 :
  (∀ q, q ∈ questions -> answer_for a1 (key q) = answer_for a2 (key q)) ->
  final_answers questions a1 = final_answers questions a2.
Proof.
  unfold final_answers. generalize (@nil (string * string)).
  induction questions as [|q questions IH]; intros d H; simpl; [reflexivity|].
  rewrite (H q) by left. apply IH. intros q' Hq'. apply H. right. exact Hq'.
Qed.

(** The sentinel is its own normal form, so a missing key reads as the
    sentinel and a present key as the normalised text of its value. *)
Lemma answer_for_requirement answers k :
  answer_for answers k = requirement answers k.
Proof.
  unfold answer_for, requirement. destruct (answers !! k); reflexivity.
Qed.

Lemma agree_on_answer_for keys a1 a2 k :
  agree_on keys a1 a2 -> k ∈ keys -> answer_for a1 k = answer_for a2 k.
Proof.
  intros H Hk. specialize (H k Hk). unfold answer_for.
  destruct (a1 !! k), (a2 !! k); simpl in *; congruence.
Qed.

(** A value that is present but blank is kept, as the empty string. *)
Lemma answer_for_blank answers k s :
  answers !! k = Some (JStr s) -> PyStr.blank s = true ->
  answer_for answers k = EmptyString.
Proof.
  intros Hk Hs. unfold answer_for. rewrite Hk. simpl.
  apply normalize_empty_iff, Hs.
Qed.

Lemma answer_for_filter (keys : list string) answers k :
  k ∈ keys ->
  answer_for (filter (λ item, item.1 ∈ keys) answers) k = answer_for answers k.
Proof.
  intros Hk. unfold answer_for. f_equal. f_equal. f_equal.
  destruct (answers !! k) as [v|] eqn:E.
  - apply map_lookup_filter_Some. split; [exact E | exact Hk].
  - apply map_lookup_filter_None. left. exact E.
Qed.

End Answers.

(** C1, at a failing input. In batch mode a payload value that is empty is
    kept: with the payload that maps [goal] to the empty string, the answer
    set maps [goal] to the empty string and not to "Not specified", while a
    key the payload lacks does get the sentinel.  The interactive collector,
    given a blank line, stores the sentinel. *)
Theorem batch_blank_answer_stays_blank :
  let payload := Sample.object_text Sample.blank_goal in
  let args := mkArgs "Plan a picnic" (Some payload) in
  Sample.json_loads payload = Decoded (JObject {[ "goal" := JStr EmptyString ]})
  ∧ ∃ questions final,
      build_question_set (normalize "Plan a picnic") = Ok questions
      ∧ "goal" ∈ map key questions
      ∧ final = final_answers questions {[ "goal" := JStr EmptyString ]}
      ∧ main Sample.json_loads args (World [] [])
        = (World [] (report (compose_prompt "Plan a picnic" final)), Ok tt)
      ∧ dict_get final "goal" = Some EmptyString
      ∧ dict_get final "audience" = Some NOT_SPECIFIED
      ∧ ∃ w' collected,
          ask_questions questions (World (Sample.lines 10 "  ") []) = (w', Ok collected)
          ∧ collected !! "goal" = Some (JStr NOT_SPECIFIED).
Proof.
  cbv zeta. split; [vm_compute; reflexivity|].
  eexists _, _. split; [vm_compute; reflexivity|].
  split; [apply (bool_decide_unpack _); vm_compute; exact I|].
  split; [reflexivity|].
  split; [vm_compute; reflexivity|].
  split; [vm_compute; reflexivity|].
  split; [vm_compute; reflexivity|].
  eexists _, _. split; [vm_compute; reflexivity|].
  vm_compute; reflexivity.
Qed.

(** ** Lines of the composed prompt *)

Section Lines.
Import PyStr.

Lemma append_assoc (a b c : string) : (a +:+ b) +:+ c = a +:+ (b +:+ c).
Proof.
  induction a as [|x a IH]; [reflexivity|].
  change (String x ((a +:+ b) +:+ c) = String x (a +:+ (b +:+ c))).
  rewrite IH. reflexivity.
Qed.

Lemma mem_append c (a b : string) : mem c (a +:+ b) = mem c a || mem c b.
Proof.
  induction a as [|x a IH]; [reflexivity|].
  change (Ascii.eqb x c || mem c (a +:+ b) = Ascii.eqb x c || mem c a || mem c b).
  rewrite IH. apply orb_assoc.
Qed.

Lemma split_piece c (h rest : string) :
  mem c h = false -> split c (h +:+ String c rest) = h :: split c rest.
Proof.
  induction h as [|a h IH]; intros Hm.
  - change (split c (String c rest) = EmptyString :: split c rest).
    cbn [split]. rewrite Ascii.eqb_refl. reflexivity.
  - cbn [mem] in Hm. apply orb_false_iff in Hm as [Ha Hm].
    change (split c (String a (h +:+ String c rest))
            = String a h :: split c rest).
    cbn [split]. rewrite Ha, (IH Hm). reflexivity.
Qed.

Lemma split_last c (h : string) : mem c h = false -> split c h = [h].
Proof.
  induction h as [|a h IH]; intros Hm; [reflexivity|].
  cbn [mem] in Hm. apply orb_false_iff in Hm as [Ha Hm].
  cbn [split]. rewrite Ha, (IH Hm). reflexivity.
Qed.

(** Joining lines that hold no separator and splitting again gives the
    lines back. *)
Lemma split_join c (lines : list string) :
  lines ≠ [] -> Forall (λ l, mem c l = false) lines ->
  split c (join (String c EmptyString) lines) = lines.
Proof.
  induction lines as [|x lines IH]; intros Hne HF; [congruence|].
  apply Forall_cons in HF as [Hx HF].
  destruct lines as [|y lines]; [apply split_last, Hx|].
  change (split c (x +:+ String c (join (String c EmptyString) (y :: lines)))
          = x :: y :: lines).
  rewrite (split_piece _ _ _ Hx), IH; [reflexivity | discriminate | exact HF].
Qed.

Lemma resolved_keys_one_line summary questions :
  build_question_set summary = Ok questions ->
  questions ≠ [] ∧ Forall (λ q, mem "010" (key q) = false) questions.
Proof.
  rewrite build_question_set_eq, matched_items_flags. intros [= <-].
  split; [discriminate|].
  destruct (matches summary "web"), (matches summary "api"),
           (matches summary "data"), (matches summary "agent");
    repeat constructor.
Qed.

Lemma context_line_one_line k s :
  mem "010" k = false -> mem "010" (context_line (k, normalize s)) = false.
Proof.
  intros Hk. unfold context_line. cbn [fst snd].
  rewrite !mem_append, Hk, normalize_no_newline. reflexivity.
Qed.

(** The composed prompt around its "Clarified Requirements" section. *)
Lemma compose_prompt_sections summary answers :
  ∃ after,
    compose_prompt summary answers =
    ("You are an elite product + engineering execution assistant."
     +:+ (nl +:+ nl) +:+ "## Project Summary" +:+ (nl +:+ nl) +:+ summary
     +:+ (nl +:+ nl) +:+ "## Clarified Requirements" +:+ (nl +:+ nl))
    +:+ context_lines answers
    +:+ ((nl +:+ nl) +:+ "## Your Task" +:+ after).
Proof.
  unfold compose_prompt. cbv zeta. cbn [join].
  eexists. rewrite !append_assoc. reflexivity.
Qed.

End Lines.

(** C4. For every summary (not blank, so that a prompt is composed) and
    every batch payload (a string that is present and not empty, which any
    JSON text is) that decodes to a key-value mapping, also one that lacks
    some of the resolved keys,
    the "Clarified Requirements" section of the composed prompt consists of
    exactly one line per resolved question, written [- <key>: <value>], in
    the order of the resolved questions, and the value of a key the payload
    lacks is "Not specified". *)
Theorem requirements_one_line_per_question
    (json_loads : string -> json_result) (args : Namespace)
    (payload : string) (answers : gmap string json_value) (w : world) :
  normalize (arg_summary args) ≠ EmptyString ->
  arg_answers_json args = Some payload ->
  payload ≠ EmptyString ->
  json_loads payload = Decoded (JObject answers) ->
  ∃ questions prompt after,
    let summary := normalize (arg_summary args) in
    let lines :=
      map (λ q, "- " +:+ key q +:+ ": " +:+ requirement answers (key q))
          questions in
    build_question_set summary = Ok questions
    ∧ main json_loads args w
      = (World (stdin w) (stdout w ++ report prompt), Ok tt)
    ∧ prompt =
      ("You are an elite product + engineering execution assistant."
       +:+ (PyStr.nl +:+ PyStr.nl) +:+ "## Project Summary"
       +:+ (PyStr.nl +:+ PyStr.nl) +:+ summary
       +:+ (PyStr.nl +:+ PyStr.nl) +:+ "## Clarified Requirements"
       +:+ (PyStr.nl +:+ PyStr.nl))
      +:+ PyStr.join PyStr.nl lines
      +:+ ((PyStr.nl +:+ PyStr.nl) +:+ "## Your Task" +:+ after)
    ∧ PyStr.split "010" (PyStr.join PyStr.nl lines) = lines
    ∧ length lines = length questions
    ∧ ∀ q, q ∈ questions -> answers !! key q = None ->
        requirement answers (key q) = "Not specified".
Proof.
  intros Hs Hp Hne Hload.
  destruct (main_batch json_loads args payload w Hs
              (batch_payload_Some _ _ Hp Hne)) as (questions & Hq & Hnd & Hrun).
  rewrite Hload in Hrun.
  destruct (compose_prompt_sections (normalize (arg_summary args))
              (final_answers questions answers)) as (after & Hdoc).
  destruct (resolved_keys_one_line _ _ Hq) as (Hsome & Hkeys).
  assert (Hlines : context_lines (final_answers questions answers)
                   = PyStr.join PyStr.nl
                       (map (λ q, "- " +:+ key q +:+ ": "
                                  +:+ requirement answers (key q)) questions)).
  { unfold context_lines. rewrite (final_answers_items _ _ Hnd), map_map.
    f_equal. apply map_ext. intros q. rewrite answer_for_requirement. reflexivity. }
  exists questions, (compose_prompt (normalize (arg_summary args))
                       (final_answers questions answers)), after.
  cbv zeta. split; [exact Hq|]. split; [exact Hrun|].
  split; [rewrite <- Hlines; exact Hdoc|].
  split.
  - apply split_join.
    + destruct questions; [congruence | discriminate].
    + apply Forall_map. eapply Forall_impl; [exact Hkeys|].
      intros q Hk. cbv beta. rewrite <- answer_for_requirement.
      apply (context_line_one_line (key q) _ Hk).
  - split; [apply length_map|].
    intros q _ Hmiss. unfold requirement. rewrite Hmiss. reflexivity.
Qed.

Lemma requirements_one_line_per_question_witness :
  let args := mkArgs " Build a  web API for tracking tasks "
                (Some (Sample.object_text Sample.partial)) in
  let answers := Sample.object_value Sample.partial in
  let w := World [] [] in
  ∃ questions prompt after,
    let summary := normalize (arg_summary args) in
    let lines :=
      map (λ q, "- " +:+ key q +:+ ": " +:+ requirement answers (key q))
          questions in
    build_question_set summary = Ok questions
    ∧ main Sample.json_loads args w
      = (World (stdin w) (stdout w ++ report prompt), Ok tt)
    ∧ prompt =
      ("You are an elite product + engineering execution assistant."
       +:+ (PyStr.nl +:+ PyStr.nl) +:+ "## Project Summary"
       +:+ (PyStr.nl +:+ PyStr.nl) +:+ summary
       +:+ (PyStr.nl +:+ PyStr.nl) +:+ "## Clarified Requirements"
       +:+ (PyStr.nl +:+ PyStr.nl))
      +:+ PyStr.join PyStr.nl lines
      +:+ ((PyStr.nl +:+ PyStr.nl) +:+ "## Your Task" +:+ after)
    ∧ PyStr.split "010" (PyStr.join PyStr.nl lines) = lines
    ∧ length lines = length questions
    ∧ ∀ q, q ∈ questions -> answers !! key q = None ->
        requirement answers (key q) = "Not specified".
Proof.
  cbv zeta.
  apply (requirements_one_line_per_question Sample.json_loads
           (mkArgs " Build a  web API for tracking tasks "
              (Some (Sample.object_text Sample.partial)))
           (Sample.object_text Sample.partial)
           (Sample.object_value Sample.partial) (World [] [])).
  - vm_compute. discriminate.
  - reflexivity.
  - vm_compute. discriminate.
  - vm_compute. reflexivity.
Defined.

(** C10. Payload keys outside the resolved question sequence have no effect:
    for every summary and every two payloads that decode to key-value
    mappings and agree, after [str] and normalisation, on every key of the
    resolved sequence, the two runs are identical, composed prompt
    included; and the answer set is the one of the payload with every other
    key removed. *)
Theorem unlisted_keys_ignored
    (json_loads : string -> json_result) (summary p1 p2 : string)
    (a1 a2 : gmap string json_value) (w : world) :
  p1 ≠ EmptyString -> p2 ≠ EmptyString ->
  json_loads p1 = Decoded (JObject a1) ->
  json_loads p2 = Decoded (JObject a2) ->
  (∀ questions, build_question_set (normalize summary) = Ok questions ->
                agree_on (map key questions) a1 a2) ->
  main json_loads (mkArgs summary (Some p1)) w
  = main json_loads (mkArgs summary (Some p2)) w
  ∧ ∀ questions, build_question_set (normalize summary) = Ok questions ->
      final_answers questions a1 = final_answers questions a2
      ∧ final_answers questions a1
        = final_answers questions
            (filter (λ item, item.1 ∈ map key questions) a1).
Proof.
  intros Hne1 Hne2 Hl1 Hl2 Hagree.
  assert (Hfinal : ∀ questions,
            build_question_set (normalize summary) = Ok questions ->
            final_answers questions a1 = final_answers questions a2).
  { intros questions Hq. apply final_answers_ext. intros q Hin.
    apply (agree_on_answer_for _ _ _ _ (Hagree _ Hq)).
    apply list_elem_of_fmap. exists q. split; [reflexivity | exact Hin]. }
  split.
  - destruct (decide (normalize summary = EmptyString)) as [He|Hs].
    + rewrite !main_empty_summary by exact He. reflexivity.
    + destruct (main_batch json_loads (mkArgs summary (Some p1)) p1 w Hs
                  (batch_payload_Some (mkArgs summary (Some p1)) p1 eq_refl Hne1)) as (q1 & Hq1 & _ & Hr1).
      destruct (main_batch json_loads (mkArgs summary (Some p2)) p2 w Hs
                  (batch_payload_Some (mkArgs summary (Some p2)) p2 eq_refl Hne2)) as (q2 & Hq2 & _ & Hr2).
      cbn [arg_summary] in *. rewrite Hq1 in Hq2. injection Hq2 as <-.
      rewrite Hr1, Hr2, Hl1, Hl2, (Hfinal _ Hq1). reflexivity.
  - intros questions Hq. split; [apply Hfinal, Hq|].
    apply final_answers_ext. intros q Hin. symmetry. apply answer_for_filter.
    apply list_elem_of_fmap. exists q. split; [reflexivity | exact Hin].
Qed.

Lemma unlisted_keys_ignored_witness :
  let summary := "Build a web API for tracking tasks" in
  let p1 := Sample.object_text Sample.partial in
  let p2 := Sample.object_text Sample.partial_extra in
  let a1 := Sample.object_value Sample.partial in
  let a2 := Sample.object_value Sample.partial_extra in
  let w := World [] [] in
  main Sample.json_loads (mkArgs summary (Some p1)) w
  = main Sample.json_loads (mkArgs summary (Some p2)) w
  ∧ ∀ questions, build_question_set (normalize summary) = Ok questions ->
      final_answers questions a1 = final_answers questions a2
      ∧ final_answers questions a1
        = final_answers questions
            (filter (λ item, item.1 ∈ map key questions) a1).
Proof.
  cbv zeta.
  apply (unlisted_keys_ignored Sample.json_loads
           "Build a web API for tracking tasks"
           (Sample.object_text Sample.partial)
           (Sample.object_text Sample.partial_extra)
           (Sample.object_value Sample.partial)
           (Sample.object_value Sample.partial_extra) (World [] [])).
  - vm_compute. discriminate.
  - vm_compute. discriminate.
  - vm_compute. reflexivity.
  - vm_compute. reflexivity.
  - intros questions Hq. vm_compute in Hq. injection Hq as <-.
    intros k Hk. cbn [map key] in Hk.
    repeat (apply elem_of_cons in Hk as [->|Hk]; [vm_compute; reflexivity|]).
    apply elem_of_nil in Hk. destruct Hk.
Defined.

(** C9. Composition is deterministic.  The composer is a function of the
    summary and the answer set, so equal inputs give equal documents; and a
    batch run writes the same chunks whatever the state of the process it
    starts from.  In particular two runs on the summary
    "Build a web API for tracking tasks" with one payload, complete or not,
    print the same prompt. *)
Theorem compose_prompt_deterministic
    (json_loads : string -> json_result) (payload : string)
    (answers : gmap string json_value) (w1 w2 : world)
    (s1 s2 : string) (d1 d2 : dict string) :
  s1 = s2 -> d1 = d2 ->
  payload ≠ EmptyString ->
  json_loads payload = Decoded (JObject answers) ->
  compose_prompt s1 d1 = compose_prompt s2 d2
  ∧ ∃ questions prompt,
      let args := mkArgs "Build a web API for tracking tasks" (Some payload) in
      build_question_set "Build a web API for tracking tasks" = Ok questions
      ∧ prompt = compose_prompt "Build a web API for tracking tasks"
                   (final_answers questions answers)
      ∧ main json_loads args w1
        = (World (stdin w1) (stdout w1 ++ report prompt), Ok tt)
      ∧ main json_loads args w2
        = (World (stdin w2) (stdout w2 ++ report prompt), Ok tt).
Proof.
  intros -> -> Hne Hload. split; [reflexivity|].
  set (args := mkArgs "Build a web API for tracking tasks" (Some payload)).
  assert (Hs : normalize (arg_summary args) ≠ EmptyString)
    by (vm_compute; discriminate).
  assert (Hp : batch_payload args = Some payload)
    by (apply batch_payload_Some; [reflexivity | exact Hne]).
  destruct (main_batch json_loads args payload w1 Hs Hp) as (q1 & Hq1 & _ & Hr1).
  destruct (main_batch json_loads args payload w2 Hs Hp) as (q2 & Hq2 & _ & Hr2).
  rewrite Hq1 in Hq2. injection Hq2 as <-. rewrite Hload in Hr1, Hr2.
  assert (Hn : normalize (arg_summary args) = "Build a web API for tracking tasks")
    by (vm_compute; reflexivity).
  rewrite Hn in *.
  exists q1, (compose_prompt "Build a web API for tracking tasks"
                (final_answers q1 answers)).
  cbv zeta. auto.
Qed.

Lemma compose_prompt_deterministic_witness :
  let payload := Sample.object_text Sample.complete in
  let answers := Sample.object_value Sample.complete in
  let w1 := World [] [] in
  let w2 := World (Sample.lines 2 "soon") ["earlier output"] in
  compose_prompt "Build a web API for tracking tasks" Sample.complete
  = compose_prompt "Build a web API for tracking tasks" Sample.complete
  ∧ ∃ questions prompt,
      let args := mkArgs "Build a web API for tracking tasks" (Some payload) in
      build_question_set "Build a web API for tracking tasks" = Ok questions
      ∧ prompt = compose_prompt "Build a web API for tracking tasks"
                   (final_answers questions answers)
      ∧ main Sample.json_loads args w1
        = (World (stdin w1) (stdout w1 ++ report prompt), Ok tt)
      ∧ main Sample.json_loads args w2
        = (World (stdin w2) (stdout w2 ++ report prompt), Ok tt).
Proof.
  cbv zeta.
  apply (compose_prompt_deterministic Sample.json_loads
           (Sample.object_text Sample.complete)
           (Sample.object_value Sample.complete)
           (World [] []) (World (Sample.lines 2 "soon") ["earlier output"])
           "Build a web API for tracking tasks"
           "Build a web API for tracking tasks"
           Sample.complete Sample.complete).
  - reflexivity.
  - reflexivity.
  - vm_compute. discriminate.
  - vm_compute. reflexivity.
Defined.

Lemma multi_keyword_selection_witness :
  let summary := "Build a web API for tracking tasks" in
  2 <= length (matched_items summary)
  ∧ ∃ questions,
      build_question_set summary = Ok questions
      ∧ questions = CORE_QUESTIONS ++ spec_supplemental summary ++ EXTRA_QUESTIONS
      ∧ map key (spec_supplemental summary)
        = dedup_keep_first (concat (matched_items summary).*2)
      ∧ (∀ keyword keys k,
           (keyword, keys) ∈ matched_items summary -> k ∈ keys ->
           ∃ q, dict_get KEYWORD_QUESTIONS k = Some q ∧ q ∈ questions)
      ∧ NoDup (map key questions).
Proof.
  cbv zeta.
  assert (H : 2 <= length (matched_items "Build a web API for tracking tasks"))
    by (vm_compute; lia).
  split; [exact H|].
  apply (multi_keyword_selection "Build a web API for tracking tasks" H).
Defined.


(** ** Further properties of normalisation *)

Section NormalForm.
Import PyStr.

Lemma single_spaced_sub_ws b s : single_spaced b (sub_ws_from b s) = true.
Proof.
  revert b. induction s as [|c s IH]; intros b; [reflexivity|].
  cbn [sub_ws_from]. destruct (is_space c) eqn:Ec.
  - destruct b; [apply IH|].
    change (single_spaced false (String space (sub_ws_from true s)))
      with (single_spaced true (sub_ws_from true s)).
    apply IH.
  - cbn [single_spaced]. rewrite Ec. apply IH.
Qed.

Lemma single_spaced_fixed b s :
  single_spaced b s = true -> sub_ws_from b s = s.
Proof.
  revert b. induction s as [|c s IH]; intros b H; [reflexivity|].
  cbn [single_spaced sub_ws_from] in *. destruct (is_space c) eqn:Ec.
  - apply andb_true_iff in H as [H Hs]. apply andb_true_iff in H as [Hb Hc].
    destruct b; [discriminate|]. apply Ascii.eqb_eq in Hc. subst c.
    rewrite (IH _ Hs). reflexivity.
  - rewrite (IH _ H). reflexivity.
Qed.

Lemma normalize_canonical s : canonical (normalize s) = true.
Proof.
  unfold canonical. rewrite normalize_head, normalize_ends.
  apply single_spaced_sub_ws.
Qed.

Lemma canonical_normalize_fixed s : canonical s = true -> normalize s = s.
Proof.
  unfold canonical. intros H.
  apply andb_true_iff in H as [H Hs]. apply andb_true_iff in H as [Hh He].
  apply negb_true_iff in Hh, He.
  unfold normalize. rewrite (strip_fixed _ Hh He).
  apply single_spaced_fixed, Hs.
Qed.

Lemma solid_lstrip s : solid (lstrip s) = solid s.
Proof.
  induction s as [|c s IH]; [reflexivity|]. cbn [lstrip solid].
  destruct (is_space c) eqn:Ec; [exact IH|]. cbn [solid]. rewrite Ec. reflexivity.
Qed.

Lemma solid_rstrip s : solid (rstrip s) = solid s.
Proof.
  induction s as [|c s IH]; [reflexivity|]. cbn [rstrip solid].
  destruct (rstrip s) as [|c2 r] eqn:Er.
  - cbn [solid] in IH. rewrite <- IH.
    destruct (is_space c) eqn:Ec; [reflexivity|]. cbn [solid]. rewrite Ec. reflexivity.
  - change (solid (String c (String c2 r))
            = (if is_space c then solid s else String c (solid s))).
    rewrite <- IH. reflexivity.
Qed.

Lemma solid_sub_ws b s : solid (sub_ws_from b s) = solid s.
Proof.
  revert b. induction s as [|c s IH]; intros b; [reflexivity|].
  cbn [sub_ws_from solid]. destruct (is_space c) eqn:Ec.
  - destruct b; [apply IH|].
    change (solid (String space (sub_ws_from true s))) with (solid (sub_ws_from true s)).
    apply IH.
  - cbn [solid]. rewrite Ec, IH. reflexivity.
Qed.

Lemma length_lstrip s : String.length (lstrip s) <= String.length s.
Proof.
  induction s as [|c s IH]; [reflexivity|]. cbn [lstrip].
  destruct (is_space c); cbn [String.length]; lia.
Qed.

Lemma length_rstrip s : String.length (rstrip s) <= String.length s.
Proof.
  induction s as [|c s IH]; [reflexivity|]. cbn [rstrip].
  destruct (rstrip s); [destruct (is_space c)|]; cbn [String.length] in *; lia.
Qed.

Lemma length_sub_ws b s : String.length (sub_ws_from b s) <= String.length s.
Proof.
  revert b. induction s as [|c s IH]; intros b; [reflexivity|].
  cbn [sub_ws_from]. destruct (is_space c); [destruct b|];
    cbn [String.length]; specialize (IH true) as IHt; specialize (IH false); lia.
Qed.

End NormalForm.

(** X1. The fixed points of [normalize] are the strings in normal form: no
    whitespace at either end, every whitespace character a space, no two of
    them adjacent.  Every result of [normalize] is in normal form. *)
Theorem normalize_fixed_iff_canonical (s : string) :
  canonical (normalize s) = true
  ∧ (normalize s = s <-> canonical s = true).
Proof.
  split; [apply normalize_canonical|]. split.
  - intros <-. apply normalize_canonical.
  - apply canonical_normalize_fixed.
Qed.

(** X2. [normalize] gives the empty string exactly for the blank strings:
    the empty one and those made of whitespace only, line separators and
    the no-break space included. *)
Theorem normalize_empty_iff_blank (s : string) :
  normalize s = EmptyString <-> PyStr.blank s = true.
Proof. apply normalize_empty_iff. Qed.

(** X3. [normalize] touches whitespace only: the characters that are not
    whitespace come out unchanged and in order, and the result is never
    longer than the argument. *)
Theorem normalize_keeps_text (s : string) :
  solid (normalize s) = solid s
  ∧ String.length (normalize s) <= String.length s.
Proof.
  unfold normalize, PyStr.sub_ws, PyStr.strip. split.
  - rewrite solid_sub_ws, solid_rstrip, solid_lstrip. reflexivity.
  - pose proof (length_sub_ws false (PyStr.rstrip (PyStr.lstrip s))).
    pose proof (length_rstrip (PyStr.lstrip s)).
    pose proof (length_lstrip s). lia.
Qed.


(** ** Further properties of keyword matching *)

Section Matching.
Import PyStr.

Lemma lower_char_idem c : lower_char (lower_char c) = lower_char c.
Proof. destruct c as [[] [] [] [] [] [] [] []]; reflexivity. Qed.

Lemma is_space_lower_char c : is_space (lower_char c) = is_space c.
Proof. destruct c as [[] [] [] [] [] [] [] []]; reflexivity. Qed.

Lemma lower_idem s : lower (lower s) = lower s.
Proof.
  induction s as [|c s IH]; [reflexivity|]. cbn [lower].
  rewrite lower_char_idem, IH. reflexivity.
Qed.

Lemma lower_append a b : lower (a +:+ b) = lower a +:+ lower b.
Proof.
  induction a as [|c a IH]; [reflexivity|].
  change (String (lower_char c) (lower (a +:+ b))
          = String (lower_char c) (lower a +:+ lower b)).
  rewrite IH. reflexivity.
Qed.

Lemma lower_lstrip s : lower (lstrip s) = lstrip (lower s).
Proof.
  induction s as [|c s IH]; [reflexivity|]. cbn [lstrip lower].
  rewrite is_space_lower_char. destruct (is_space c); [exact IH | reflexivity].
Qed.

Lemma lower_rstrip s : lower (rstrip s) = rstrip (lower s).
Proof.
  induction s as [|c s IH]; [reflexivity|]. cbn [rstrip lower].
  rewrite <- IH, is_space_lower_char.
  destruct (rstrip s); [destruct (is_space c)|]; reflexivity.
Qed.

Lemma lower_sub_ws b s : lower (sub_ws_from b s) = sub_ws_from b (lower s).
Proof.
  revert b. induction s as [|c s IH]; intros b; [reflexivity|].
  cbn [sub_ws_from lower]. rewrite is_space_lower_char.
  destruct (is_space c); [destruct b|]; cbn [lower]; rewrite IH; reflexivity.
Qed.

Lemma lower_normalize s : lower (normalize s) = normalize (lower s).
Proof.
  unfold normalize, sub_ws, strip.
  rewrite lower_sub_ws, lower_rstrip, lower_lstrip. reflexivity.
Qed.

Lemma startswith_empty s : startswith s EmptyString = true.
Proof. destruct s; reflexivity. Qed.

Lemma contains_unfold s p :
  contains s p =
  startswith s p || match s with
                    | EmptyString => false
                    | String _ s' => contains s' p
                    end.
Proof. destruct s; reflexivity. Qed.

Lemma startswith_spec s p : startswith s p = true <-> ∃ b, s = p +:+ b.
Proof.
  revert s. induction p as [|a p IH]; intros s.
  - rewrite startswith_empty. split; [intros _; exists s; reflexivity | reflexivity].
  - destruct s as [|c s]; cbn [startswith].
    + split; [discriminate | intros [b Hb]; discriminate].
    + rewrite andb_true_iff, IH. split.
      * intros [->%Ascii.eqb_eq [b ->]]. exists b. reflexivity.
      * intros [b Hb]. change (String c s = String a (p +:+ b)) in Hb.
        injection Hb as -> ->. split; [apply Ascii.eqb_refl | eexists; reflexivity].
Qed.

Lemma contains_spec s p : contains s p = true <-> ∃ a b, s = a +:+ p +:+ b.
Proof.
  split.
  - induction s as [|c s IH]; rewrite contains_unfold, orb_true_iff.
    + intros [[b Hb]%startswith_spec|]; [|discriminate].
      exists EmptyString, b. exact Hb.
    + intros [[b Hb]%startswith_spec|H].
      * exists EmptyString, b. exact Hb.
      * destruct (IH H) as (a & b & ->). exists (String c a), b. reflexivity.
  - intros (a & b & ->). induction a as [|c a IH].
    + rewrite contains_unfold, orb_true_iff. left.
      apply startswith_spec. exists b. reflexivity.
    + change (contains (String c (a +:+ p +:+ b)) p = true).
      rewrite contains_unfold, IH. apply orb_true_r.
Qed.

Lemma eqb_solid_space a c :
  is_space a = false -> is_space c = true -> Ascii.eqb a c = false.
Proof.
  intros Ha Hc. destruct (Ascii.eqb_spec a c) as [->|]; [congruence | reflexivity].
Qed.

Lemma startswith_space s a p :
  is_space a = false -> head_space s = true -> startswith s (String a p) = false.
Proof.
  destruct s as [|c s]; [reflexivity|]. cbn [head_space startswith].
  intros Ha Hc. rewrite (eqb_solid_space _ _ Ha Hc). reflexivity.
Qed.

Lemma contains_lstrip s a p :
  is_space a = false -> contains (lstrip s) (String a p) = contains s (String a p).
Proof.
  intros Ha. induction s as [|c s IH]; [reflexivity|]. cbn [lstrip].
  destruct (is_space c) eqn:Ec; [|reflexivity].
  rewrite IH, (contains_unfold (String c s)), startswith_space; auto.
Qed.

Lemma startswith_sub_ws s p :
  spaceless p = true -> startswith (sub_ws_from false s) p = startswith s p.
Proof.
  revert s. induction p as [|a p IH]; intros s Hp.
  - rewrite !startswith_empty. reflexivity.
  - cbn [spaceless] in Hp. apply andb_true_iff in Hp as [Ha%negb_true_iff Hp].
    destruct s as [|c s]; [reflexivity|]. cbn [sub_ws_from].
    destruct (is_space c) eqn:Ec.
    + rewrite !startswith_space; auto.
    + cbn [startswith]. rewrite (IH _ Hp). reflexivity.
Qed.

Lemma contains_sub_ws b s a p :
  spaceless (String a p) = true ->
  contains (sub_ws_from b s) (String a p) = contains s (String a p).
Proof.
  intros Hp. assert (Ha : is_space a = false).
  { cbn [spaceless] in Hp. apply andb_true_iff in Hp as [Ha%negb_true_iff _]. exact Ha. }
  revert b. induction s as [|c s IH]; intros b; [reflexivity|].
  rewrite (contains_unfold (String c s)). cbn [sub_ws_from].
  destruct (is_space c) eqn:Ec.
  - rewrite (startswith_space (String c s)) by auto.
    destruct b; [apply IH|].
    rewrite contains_unfold, startswith_space by auto. apply IH.
  - rewrite contains_unfold, IH. f_equal. cbn [startswith]. f_equal.
    apply startswith_sub_ws.
    cbn [spaceless] in Hp. apply andb_true_iff in Hp as [_ Hp]. exact Hp.
Qed.

Lemma startswith_rstrip s p :
  spaceless p = true -> startswith (rstrip s) p = startswith s p.
Proof.
  revert p. induction s as [|c s IH]; intros p Hp; [reflexivity|].
  destruct p as [|a p]; [rewrite !startswith_empty; reflexivity|].
  cbn [spaceless] in Hp. apply andb_true_iff in Hp as [Ha%negb_true_iff Hp].
  specialize (IH p Hp). cbn [rstrip].
  destruct (rstrip s) as [|c2 r] eqn:Er.
  - destruct (is_space c) eqn:Ec.
    + rewrite (startswith_space (String c s)) by auto. reflexivity.
    + change (Ascii.eqb a c && startswith EmptyString p
              = Ascii.eqb a c && startswith s p).
      rewrite IH. reflexivity.
  - change (Ascii.eqb a c && startswith (String c2 r) p
            = Ascii.eqb a c && startswith s p).
    rewrite IH. reflexivity.
Qed.

Lemma contains_rstrip s a p :
  spaceless (String a p) = true ->
  contains (rstrip s) (String a p) = contains s (String a p).
Proof.
  intros Hp. induction s as [|c s IH]; [reflexivity|].
  rewrite (contains_unfold (String c s)), <- IH.
  rewrite <- (startswith_rstrip (String c s)) by exact Hp.
  cbn [rstrip]. destruct (rstrip s) as [|c2 r] eqn:Er.
  - destruct (is_space c); rewrite contains_unfold; reflexivity.
  - rewrite contains_unfold. reflexivity.
Qed.

(** A keyword without whitespace is found in the normalised summary
    exactly when it is found in the summary. *)
Lemma matches_normalize s a p :
  spaceless (String a p) = true ->
  matches (normalize s) (String a p) = matches s (String a p).
Proof.
  intros Hp. unfold matches. rewrite lower_normalize.
  unfold normalize, sub_ws, strip.
  assert (Ha : is_space a = false).
  { cbn [spaceless] in Hp. apply andb_true_iff in Hp as [Ha%negb_true_iff _]. exact Ha. }
  rewrite contains_sub_ws, contains_rstrip, contains_lstrip; auto.
Qed.

Lemma matches_lower s p : matches (lower s) p = matches s p.
Proof. unfold matches. rewrite lower_idem. reflexivity. Qed.

(** The question set depends on the summary through the four tests only. *)
Lemma build_question_set_by_matches s1 s2 :
  Forall (λ keyword, matches s1 keyword = matches s2 keyword) KEYWORDS.*1 ->
  build_question_set s1 = build_question_set s2.
Proof.
  intros H. cbn in H.
  apply Forall_cons in H as [Hweb H]. apply Forall_cons in H as [Hapi H].
  apply Forall_cons in H as [Hdata H]. apply Forall_cons in H as [Hagent _].
  rewrite !build_question_set_eq, !matched_items_flags.
  rewrite Hweb, Hapi, Hdata, Hagent. reflexivity.
Qed.

Lemma matched_keys_resolved summary keyword keys k :
  (keyword, keys) ∈ matched_items summary -> k ∈ keys ->
  k ∈ map key (questions_for (concat (matched_items summary).*2)).
Proof.
  intros Hitem Hk.
  destruct (pick_by_flags (matches summary "web") (matches summary "api")
              (matches summary "data") (matches summary "agent"))
    as (_ & Hkeys & _ & _).
  cbv zeta in Hkeys. rewrite <- matched_items_flags in Hkeys. rewrite Hkeys.
  apply list_elem_of_In, in_concat. exists keys.
  split; apply list_elem_of_In; [|exact Hk].
  apply list_elem_of_fmap. exists (keyword, keys). split; [reflexivity | exact Hitem].
Qed.

End Matching.

Section PickLoop.

Lemma questions_for_cons_Some k q keys :
  dict_get KEYWORD_QUESTIONS k = Some q ->
  questions_for (k :: keys) = q :: questions_for keys.
Proof. intros H. unfold questions_for. cbn [omap list_omap]. rewrite H. reflexivity. Qed.

Lemma dedup_keep_first_subset l x : x ∈ dedup_keep_first l -> x ∈ l.
Proof.
  induction l as [|y l IH]; cbn [dedup_keep_first]; [auto|].
  intros [->|H]%elem_of_cons; [left|]. right.
  apply list_elem_of_filter in H as [_ H]. auto.
Qed.

Lemma dedup_keep_first_NoDup l : NoDup (dedup_keep_first l).
Proof.
  induction l as [|y l IH]; cbn [dedup_keep_first]; [constructor|].
  apply NoDup_cons. split.
  - rewrite list_elem_of_filter. intros [H _]. congruence.
  - apply NoDup_filter, IH.
Qed.

Lemma dedup_keep_first_complete l x : x ∈ l -> x ∈ dedup_keep_first l.
Proof.
  induction l as [|y l IH]; cbn [dedup_keep_first]; [auto|].
  intros [->|H]%elem_of_cons; [left|].
  destruct (decide (x = y)) as [->|Hne]; [left|]. right.
  apply list_elem_of_filter. auto.
Qed.

Lemma questions_for_keys keys :
  Forall (λ k, is_Some (dict_get KEYWORD_QUESTIONS k)) keys ->
  map key (questions_for keys) = keys.
Proof.
  induction 1 as [|k keys [q Hq] _ IH]; [reflexivity|].
  rewrite (questions_for_cons_Some _ _ _ Hq). cbn [map].
  rewrite IH, (registry_keys _ _ Hq). reflexivity.
Qed.

(** The second loop of [choose_keyword_questions] from any state: the keys
    already seen are skipped, every other key is looked up at its first
    occurrence. *)
Lemma pick_questions_from keys (seen : gset string) result :
  Forall (λ k, is_Some (dict_get KEYWORD_QUESTIONS k)) keys ->
  pick_questions keys seen result
  = Ok (result ++ questions_for (filter (λ k, k ∉ seen) (dedup_keep_first keys))).
Proof.
  intros H. revert seen result.
  induction H as [|k keys [q Hq] _ IH]; intros seen result.
  - cbn. rewrite app_nil_r. reflexivity.
  - cbn [pick_questions dedup_keep_first]. rewrite filter_cons.
    destruct (decide (k ∈ seen)) as [Hin|Hout].
    + rewrite decide_False by auto. rewrite IH. do 3 f_equal.
      rewrite list_filter_filter. apply list_filter_iff. intros x. split.
      * intros Hx. split; [exact Hx | intros ->; auto].
      * intros [Hx _]. exact Hx.
    + rewrite decide_True by auto. rewrite Hq, IH.
      rewrite (questions_for_cons_Some _ _ _ Hq), <- app_assoc. cbn [app].
      do 4 f_equal. rewrite list_filter_filter. apply list_filter_iff.
      intros x. rewrite elem_of_union, elem_of_singleton. tauto.
Qed.

Lemma pick_questions_missing pre k post (seen : gset string) result :
  (∀ x, x ∈ seen -> is_Some (dict_get KEYWORD_QUESTIONS x)) ->
  Forall (λ x, is_Some (dict_get KEYWORD_QUESTIONS x)) pre ->
  dict_get KEYWORD_QUESTIONS k = None ->
  pick_questions (pre ++ k :: post) seen result = Raise (KeyError k).
Proof.
  intros Hseen Hpre Hk. revert seen result Hseen.
  induction Hpre as [|x pre [q Hq] _ IH]; intros seen result Hseen.
  - cbn [app pick_questions]. destruct (decide (k ∈ seen)) as [Hin|_].
    + destruct (Hseen _ Hin) as [q Hq]. congruence.
    + rewrite Hk. reflexivity.
  - cbn [app pick_questions]. destruct (decide (x ∈ seen)); [apply IH, Hseen|].
    rewrite Hq. apply IH. intros y [->%elem_of_singleton|Hy]%elem_of_union;
      [eexists; exact Hq | apply Hseen, Hy].
Qed.

Lemma filter_all (P : string -> Prop) `{!∀ x, Decision (P x)} (l : list string) :
  (∀ x, P x) -> filter P l = l.
Proof.
  intros HP. induction l as [|x l IH]; [reflexivity|].
  rewrite filter_cons_True by apply HP. rewrite IH. reflexivity.
Qed.

Lemma resolved_length summary questions :
  build_question_set summary = Ok questions ->
  length questions = 10 + 2 * length (matched_items summary).
Proof.
  rewrite build_question_set_eq, matched_items_flags, matched_items_length.
  intros [= <-].
  destruct (matches summary "web"), (matches summary "api"),
           (matches summary "data"), (matches summary "agent"); reflexivity.
Qed.

End PickLoop.

(** X4. The questions chosen for the normalised summary, which is what
    [main] passes on, are those of the summary as typed; and letter case
    plays no part: the lowercased summary gives the same questions. *)
Theorem selection_ignores_spacing_and_case (summary : string) :
  build_question_set (normalize summary) = build_question_set summary
  ∧ build_question_set (PyStr.lower summary) = build_question_set summary.
Proof.
  split; apply build_question_set_by_matches; cbn [fmap list_fmap KEYWORDS fst];
    repeat constructor;
    solve [apply matches_normalize; reflexivity | apply matches_lower].
Qed.

(** X5. A keyword is detected exactly when the lowercased summary holds it
    as a contiguous substring, wherever it stands. *)
Theorem matches_iff_substring (summary keyword : string) :
  matches summary keyword = true
  <-> ∃ before after, PyStr.lower summary = before +:+ keyword +:+ after.
Proof. unfold matches. apply contains_spec. Qed.

(** X6. Detection is by substring, not by word, and ignores case: a summary
    that holds a spelling of a keyword of the table in any letter case,
    even inside a longer word, gets every question of that keyword. *)
Theorem embedded_keyword_triggers
    (keyword : string) (keys : list string) (before spelling after : string) :
  (keyword, keys) ∈ KEYWORDS ->
  PyStr.lower spelling = keyword ->
  ∃ questions,
    build_question_set (before +:+ spelling +:+ after) = Ok questions
    ∧ ∀ k, k ∈ keys -> k ∈ map key questions.
Proof.
  intros Hitem Hspell. eexists. split; [apply build_question_set_eq|].
  intros k Hk. rewrite !map_app, !elem_of_app. right. left.
  apply (matched_keys_resolved _ keyword keys); [|exact Hk].
  unfold matched_items. apply list_elem_of_filter. split; [|exact Hitem].
  cbn [fst]. apply contains_spec.
  exists (PyStr.lower before), (PyStr.lower after).
  rewrite !lower_append, Hspell. reflexivity.
Qed.

Lemma embedded_keyword_triggers_witness :
  ∃ questions,
    build_question_set ("Back up my " +:+ "Data" +:+ "base nightly") = Ok questions
    ∧ ∀ k, k ∈ ["data_volume"; "privacy_requirements"] -> k ∈ map key questions.
Proof.
  apply (embedded_keyword_triggers "data" ["data_volume"; "privacy_requirements"]
           "Back up my " "Data" "base nightly").
  - repeat constructor.
  - reflexivity.
Defined.

(** X7. For every summary [build_question_set] returns: no lookup in the
    registry fails.  The result starts with the six core questions, ends
    with the four extra questions, has two questions for each matched
    keyword in between, so between 10 and 18 in all, and no key twice. *)
Theorem question_set_shape (summary : string) :
  ∃ questions,
    build_question_set summary = Ok questions
    ∧ take 6 questions = CORE_QUESTIONS
    ∧ drop (length questions - 4) questions = EXTRA_QUESTIONS
    ∧ length questions = 10 + 2 * length (matched_items summary)
    ∧ 10 <= length questions <= 18
    ∧ NoDup (map key questions).
Proof.
  eexists. split; [apply build_question_set_eq|].
  pose proof (resolved_length summary _ (build_question_set_eq summary)) as Hlen.
  pose proof (resolved_keys_NoDup summary _ (build_question_set_eq summary)) as Hnd.
  rewrite matched_items_length in Hlen.
  split; [reflexivity|]. split.
  - rewrite Hlen. rewrite matched_items_flags.
    destruct (matches summary "web"), (matches summary "api"),
             (matches summary "data"), (matches summary "agent"); reflexivity.
  - rewrite matched_items_length. split; [exact Hlen|]. split; [|exact Hnd].
    rewrite Hlen.
    destruct (matches summary "web"), (matches summary "api"),
             (matches summary "data"), (matches summary "agent"); cbn; lia.
Qed.

(** X8. The second loop of [choose_keyword_questions] deduplicates: run on
    any list of registered keys, repeated or not, it returns the registry
    entries of the keys in the order of their first occurrences, one per
    distinct key. *)
Theorem pick_questions_keeps_first (selected_keys : list string) :
  Forall (λ k, is_Some (dict_get KEYWORD_QUESTIONS k)) selected_keys ->
  ∃ result,
    pick_questions selected_keys ∅ [] = Ok result
    ∧ map key result = dedup_keep_first selected_keys
    ∧ NoDup (map key result)
    ∧ (∀ k, k ∈ selected_keys <-> k ∈ map key result)
    ∧ Forall (λ q, dict_get KEYWORD_QUESTIONS (key q) = Some q) result.
Proof.
  intros H. eexists. split; [apply pick_questions_from, H|].
  cbn [app]. rewrite filter_all by (intros x; set_solver).
  assert (Hreg : Forall (λ k, is_Some (dict_get KEYWORD_QUESTIONS k))
                   (dedup_keep_first selected_keys)).
  { rewrite Forall_forall in *. intros k Hk. apply H, dedup_keep_first_subset, Hk. }
  rewrite (questions_for_keys _ Hreg).
  split; [reflexivity|]. split; [apply dedup_keep_first_NoDup|]. split.
  - intros k. split; [apply dedup_keep_first_complete | apply dedup_keep_first_subset].
  - apply Forall_forall. intros q Hq. unfold questions_for in Hq.
    apply list_elem_of_omap in Hq as (k & _ & Hk).
    rewrite (registry_keys _ _ Hk). exact Hk.
Qed.

Lemma pick_questions_keeps_first_witness :
  ∃ result,
    pick_questions ["api_style"; "ui_framework"; "api_style"; "tool_access";
                    "ui_framework"] ∅ [] = Ok result
    ∧ map key result
      = dedup_keep_first ["api_style"; "ui_framework"; "api_style"; "tool_access";
                          "ui_framework"]
    ∧ NoDup (map key result)
    ∧ (∀ k, k ∈ ["api_style"; "ui_framework"; "api_style"; "tool_access";
                 "ui_framework"] <-> k ∈ map key result)
    ∧ Forall (λ q, dict_get KEYWORD_QUESTIONS (key q) = Some q) result.
Proof.
  apply (pick_questions_keeps_first
           ["api_style"; "ui_framework"; "api_style"; "tool_access"; "ui_framework"]).
  repeat (constructor; [eexists; reflexivity|]). constructor.
Defined.

(** X9. The lookup [KEYWORD_QUESTIONS[key]] is unguarded: run on a list
    that holds a key without a registry entry, the second loop raises
    [KeyError] for the first such key and returns no questions. *)
Theorem pick_questions_unregistered_key
    (registered : list string) (k : string) (rest : list string) :
  Forall (λ x, is_Some (dict_get KEYWORD_QUESTIONS x)) registered ->
  dict_get KEYWORD_QUESTIONS k = None ->
  pick_questions (registered ++ k :: rest) ∅ [] = Raise (KeyError k).
Proof.
  intros Hreg Hk. apply pick_questions_missing; [|exact Hreg|exact Hk].
  intros x Hx. set_solver.
Qed.

Lemma pick_questions_unregistered_key_witness :
  pick_questions (["ui_framework"] ++ "colour_scheme" :: ["api_style"]) ∅ []
  = Raise (KeyError "colour_scheme").
Proof.
  apply (pick_questions_unregistered_key ["ui_framework"] "colour_scheme" ["api_style"]).
  - repeat (constructor; [eexists; reflexivity|]). constructor.
  - reflexivity.
Defined.


(** ** The interactive collector *)

Section Asking.

Lemma bind_ok {A B} (m : IO A) (k : A -> IO B) w w' a :
  m w = (w', Ok a) -> bind m k w = k a w'.
Proof. intros H. unfold bind. rewrite H. reflexivity. Qed.

Lemma bind_raise {A B} (m : IO A) (k : A -> IO B) w w' e :
  m w = (w', Raise e) -> bind m k w = (w', Raise e).
Proof. intros H. unfold bind. rewrite H. reflexivity. Qed.

(** One turn of the loop of [ask_questions] when a line is there. *)
Lemma ask_questions_from_step q questions answers line lines out :
  ask_questions_from (q :: questions) answers (World (line :: lines) out)
  = ask_questions_from questions
      (<[key q := JStr (typed_answer line)]> answers)
      (World lines (out ++ question_chunks q)).
Proof.
  cbn [ask_questions_from]. unfold bind, print, input. cbn [stdin stdout].
  unfold question_chunks, typed_answer. rewrite <- !app_assoc. reflexivity.
Qed.

Lemma ask_questions_from_end q questions answers out :
  ask_questions_from (q :: questions) answers (World [] out)
  = (World [] (out ++ question_chunks q), Raise EOFError).
Proof.
  cbn [ask_questions_from]. unfold bind, print, input. cbn [stdin stdout].
  unfold question_chunks. rewrite <- !app_assoc. reflexivity.
Qed.

Lemma ask_questions_from_run questions lines rest out answers :
  length lines = length questions ->
  ask_questions_from questions answers (World (lines ++ rest) out)
  = (World rest (out ++ transcript questions),
     Ok (collect questions lines answers)).
Proof.
  revert lines out answers.
  induction questions as [|q questions IH]; intros [|line lines] out answers Hlen;
    try discriminate.
  - cbn. rewrite app_nil_r. reflexivity.
  - cbn [app]. rewrite ask_questions_from_step, IH by (simpl in Hlen; lia).
    unfold transcript. cbn [map concat collect]. rewrite <- app_assoc. reflexivity.
Qed.

Lemma ask_questions_from_short questions lines out answers :
  length lines < length questions ->
  ask_questions_from questions answers (World lines out)
  = (World [] (out ++ transcript (take (S (length lines)) questions)),
     Raise EOFError).
Proof.
  revert lines out answers.
  induction questions as [|q questions IH]; intros lines out answers Hlen;
    [simpl in Hlen; lia|].
  destruct lines as [|line lines].
  - rewrite ask_questions_from_end. unfold transcript.
    cbn [length take map concat]. rewrite take_0. cbn [map concat].
    rewrite (app_nil_r (question_chunks q)). reflexivity.
  - rewrite ask_questions_from_step, IH by (simpl in Hlen; lia).
    unfold transcript. cbn [length take map concat]. rewrite <- app_assoc. reflexivity.
Qed.

Lemma collect_other questions lines answers k :
  k ∉ map key questions -> collect questions lines answers !! k = answers !! k.
Proof.
  revert lines answers. induction questions as [|q questions IH];
    intros lines answers Hk; [reflexivity|].
  destruct lines as [|line lines]; [reflexivity|]. cbn [collect].
  cbn [map] in Hk. apply not_elem_of_cons in Hk as [Hne Hk].
  rewrite IH by exact Hk. apply lookup_insert_ne. congruence.
Qed.

Lemma collect_lookup questions lines answers i q line :
  NoDup (map key questions) ->
  questions !! i = Some q -> lines !! i = Some line ->
  collect questions lines answers !! key q = Some (JStr (typed_answer line)).
Proof.
  revert lines answers i.
  induction questions as [|q0 questions IH]; intros lines answers i Hnd Hq Hl;
    [discriminate|].
  destruct lines as [|l0 lines]; [discriminate|].
  cbn [map] in Hnd. apply NoDup_cons in Hnd as [Hfresh Hnd]. cbn [collect].
  destruct i as [|i].
  - injection Hq as ->. injection Hl as ->.
    rewrite collect_other by exact Hfresh. apply lookup_insert_eq.
  - apply (IH _ _ i); assumption.
Qed.

Lemma collect_dom questions lines answers k :
  length lines = length questions ->
  is_Some (collect questions lines answers !! k)
  <-> k ∈ map key questions ∨ is_Some (answers !! k).
Proof.
  revert lines answers. induction questions as [|q questions IH];
    intros [|line lines] answers Hlen; try discriminate.
  - cbn. rewrite elem_of_nil. tauto.
  - cbn [collect map]. rewrite IH by (simpl in Hlen; lia).
    rewrite elem_of_cons, lookup_insert_is_Some.
    destruct (decide (key q = k)); split; intros H; intuition (subst; auto).
Qed.

Lemma strip_strip line : PyStr.strip (PyStr.strip line) = PyStr.strip line.
Proof. apply strip_fixed; [apply strip_head | apply strip_ends]. Qed.

Lemma strip_empty_iff line : PyStr.strip line = EmptyString <-> PyStr.blank line = true.
Proof.
  unfold PyStr.strip. split.
  - intros H. apply rstrip_empty in H; [|apply lstrip_head].
    apply lstrip_empty_blank, H.
  - intros H. rewrite (lstrip_blank _ H). reflexivity.
Qed.

Lemma head_solid_not_blank s :
  PyStr.head_space s = false -> s ≠ EmptyString -> PyStr.blank s = false.
Proof.
  destruct s as [|c s]; [congruence|]. cbn. intros -> _. reflexivity.
Qed.

(** What is stored for a typed line: the stripped line, or the sentinel
    for a blank line; never the empty string, never anything that
    normalises to it. *)
Lemma typed_answer_cases line :
  (PyStr.blank line = true ∧ typed_answer line = NOT_SPECIFIED
   ∨ PyStr.blank line = false ∧ typed_answer line = PyStr.strip line)
  ∧ typed_answer line ≠ EmptyString
  ∧ PyStr.strip (typed_answer line) = typed_answer line
  ∧ normalize (typed_answer line) ≠ EmptyString.
Proof.
  unfold typed_answer. cbv zeta.
  destruct (PyStr.truthy (PyStr.strip line)) eqn:E.
  - apply truthy_true in E.
    assert (Hb : PyStr.blank line = false).
    { destruct (PyStr.blank line) eqn:Hb; [|reflexivity].
      apply strip_empty_iff in Hb. congruence. }
    split; [right; auto|]. split; [exact E|]. split; [apply strip_strip|].
    rewrite normalize_empty_iff.
    rewrite (head_solid_not_blank _ (strip_head line) E). discriminate.
  - apply truthy_false in E. split; [left; split; [apply strip_empty_iff, E | reflexivity]|].
    split; [discriminate|]. split; [reflexivity|]. vm_compute. discriminate.
Qed.

End Asking.

(** X10. Given one typed line per question, [ask_questions] returns: it
    reads exactly those lines and leaves the rest of the input, writes
    three chunks per question in order (the question, the hint, the prompt
    of [input]), and, the keys being distinct, stores for each question the
    stripped line, or "Not specified" when the line is blank.  No stored
    answer is empty and no other key is stored. *)
Theorem ask_questions_collects
    (questions : list Question) (lines rest out : list string) :
  NoDup (map key questions) ->
  length lines = length questions ->
  ∃ answers,
    ask_questions questions (World (lines ++ rest) out)
    = (World rest (out ++ transcript questions), Ok answers)
    ∧ length (transcript questions) = 3 * length questions
    ∧ (∀ i q line, questions !! i = Some q -> lines !! i = Some line ->
         answers !! key q = Some (JStr (typed_answer line)))
    ∧ (∀ k, is_Some (answers !! k) <-> k ∈ map key questions)
    ∧ (∀ line,
         (PyStr.blank line = true ∧ typed_answer line = NOT_SPECIFIED
          ∨ PyStr.blank line = false ∧ typed_answer line = PyStr.strip line)
         ∧ typed_answer line ≠ EmptyString).
Proof.
  intros Hnd Hlen. exists (collect questions lines ∅).
  split; [apply ask_questions_from_run, Hlen|]. split.
  - unfold transcript. clear. induction questions as [|q questions IH]; [reflexivity|].
    cbn [map concat]. rewrite length_app, IH. cbn [length question_chunks]. lia.
  - split; [intros i q line; apply collect_lookup, Hnd|]. split.
    + intros k. rewrite (collect_dom _ _ _ _ Hlen), lookup_empty.
      split; [intros [H|[x Hx]]; [exact H | discriminate] | auto].
    + intros line. destruct (typed_answer_cases line) as (H1 & H2 & _). auto.
Qed.

Lemma ask_questions_collects_witness :
  let lines := ["  ship the report "; String "009" " "; "plain text";
                "none"; EmptyString; "no charts"] in
  ∃ answers,
    ask_questions CORE_QUESTIONS (World (lines ++ ["left over"]) [])
    = (World ["left over"] ([] ++ transcript CORE_QUESTIONS), Ok answers)
    ∧ length (transcript CORE_QUESTIONS) = 3 * length CORE_QUESTIONS
    ∧ (∀ i q line, CORE_QUESTIONS !! i = Some q -> lines !! i = Some line ->
         answers !! key q = Some (JStr (typed_answer line)))
    ∧ (∀ k, is_Some (answers !! k) <-> k ∈ map key CORE_QUESTIONS)
    ∧ (∀ line,
         (PyStr.blank line = true ∧ typed_answer line = NOT_SPECIFIED
          ∨ PyStr.blank line = false ∧ typed_answer line = PyStr.strip line)
         ∧ typed_answer line ≠ EmptyString).
Proof.
  cbv zeta.
  apply (ask_questions_collects CORE_QUESTIONS
           ["  ship the report "; String "009" " "; "plain text";
            "none"; EmptyString; "no charts"] ["left over"] []).
  - apply (bool_decide_unpack _). vm_compute. exact I.
  - reflexivity.
Defined.

(** X11. With fewer typed lines than questions [ask_questions] raises
    [EOFError]: it has asked the questions up to the first one without a
    line, the input is used up, and the answers collected so far are not
    returned. *)
Theorem ask_questions_end_of_input
    (questions : list Question) (lines out : list string) :
  length lines < length questions ->
  ask_questions questions (World lines out)
  = (World [] (out ++ transcript (take (S (length lines)) questions)),
     Raise EOFError).
Proof. intros Hlen. apply ask_questions_from_short, Hlen. Qed.

Lemma ask_questions_end_of_input_witness :
  ask_questions CORE_QUESTIONS (World ["ship the report"; "analysts"] [])
  = (World [] ([] ++ transcript (take 3 CORE_QUESTIONS)), Raise EOFError).
Proof.
  apply (ask_questions_end_of_input CORE_QUESTIONS ["ship the report"; "analysts"] []).
  cbn. lia.
Defined.

(** ** The answer set in general, and interactive runs *)

Section AnswerSet.

Lemma dict_get_set {V} (d : dict V) k v k' :
  dict_get (dict_set d k v) k' = if decide (k = k') then Some v else dict_get d k'.
Proof.
  induction d as [|[k0 v0] d IH]; cbn [dict_set dict_get].
  - destruct (String.eqb_spec k k'), (decide (k = k')); congruence.
  - destruct (String.eqb_spec k0 k) as [->|Hne]; cbn [dict_get].
    + destruct (String.eqb_spec k k'), (decide (k = k')); congruence.
    + rewrite IH. destruct (String.eqb_spec k0 k'), (decide (k = k')); congruence.
Qed.

Lemma dict_set_keys {V} (d : dict V) k v :
  (dict_set d k v).*1 = if decide (k ∈ d.*1) then d.*1 else d.*1 ++ [k].
Proof.
  induction d as [|[k0 v0] d IH]; cbn [dict_set fmap list_fmap fst].
  - rewrite decide_False by apply not_elem_of_nil. reflexivity.
  - destruct (String.eqb_spec k0 k) as [->|Hne]; cbn [fmap list_fmap fst].
    + rewrite decide_True by left. reflexivity.
    + change (k0 :: (dict_set d k v).*1
              = if decide (k ∈ k0 :: d.*1) then k0 :: d.*1 else (k0 :: d.*1) ++ [k]).
      rewrite IH. destruct (decide (k ∈ d.*1)) as [Hin|Hout].
      * rewrite decide_True by (right; exact Hin). reflexivity.
      * rewrite decide_False; [reflexivity|].
        intros [->|H]%elem_of_cons; [congruence | auto].
Qed.

Lemma fold_dict_set_get {V} (f : string -> V) questions (d : dict V) k :
  dict_get (fold_left (λ d q, dict_set d (key q) (f (key q))) questions d) k
  = if decide (k ∈ map key questions) then Some (f k) else dict_get d k.
Proof.
  revert d. induction questions as [|q questions IH]; intros d; cbn [fold_left map].
  - rewrite decide_False by apply not_elem_of_nil. reflexivity.
  - rewrite IH, dict_get_set.
    destruct (decide (k ∈ map key questions)) as [Hin|Hout].
    + rewrite decide_True by (right; exact Hin). reflexivity.
    + destruct (decide (key q = k)) as [<-|Hne].
      * rewrite decide_True by left. reflexivity.
      * rewrite decide_False; [reflexivity|].
        intros [->|H]%elem_of_cons; [congruence | auto].
Qed.

Lemma fold_dict_set_keys {V} (f : string -> V) questions (d : dict V) :
  (fold_left (λ d q, dict_set d (key q) (f (key q))) questions d).*1
  = d.*1 ++ filter (λ k, k ∉ d.*1) (dedup_keep_first (map key questions)).
Proof.
  revert d. induction questions as [|q questions IH]; intros d;
    cbn [fold_left map dedup_keep_first].
  - rewrite filter_nil, app_nil_r. reflexivity.
  - rewrite IH, dict_set_keys, filter_cons.
    destruct (decide (key q ∈ d.*1)) as [Hin|Hout].
    + rewrite decide_False by auto. f_equal.
      rewrite list_filter_filter. apply list_filter_iff. intros x. split.
      * intros Hx. split; [exact Hx | intros ->; auto].
      * intros [Hx _]. exact Hx.
    + rewrite decide_True by auto. rewrite <- app_assoc. cbn [app]. do 2 f_equal.
      rewrite list_filter_filter. apply list_filter_iff. intros x.
      rewrite elem_of_app, list_elem_of_singleton. tauto.
Qed.

Lemma final_answers_collect questions lines :
  NoDup (map key questions) -> length lines = length questions ->
  final_answers questions (collect questions lines ∅)
  = zip_with (λ q line, (key q, normalize (typed_answer line))) questions lines.
Proof.
  intros Hnd Hlen. rewrite (final_answers_items _ _ Hnd).
  apply list_eq. intros i. rewrite list_lookup_fmap, lookup_zip_with.
  destruct (questions !! i) as [q|] eqn:Hq; [|reflexivity]. cbn.
  destruct (lookup_lt_is_Some_2 lines i) as [line Hl].
  { rewrite Hlen. apply lookup_lt_is_Some. eauto. }
  rewrite Hl. cbn. unfold answer_for.
  rewrite (collect_lookup _ _ _ _ _ _ Hnd Hq Hl). reflexivity.
Qed.

End AnswerSet.

Section Interactive.

Variable json_loads : string -> json_result.

Lemma main_asks args w :
  normalize (arg_summary args) ≠ EmptyString ->
  batch_payload args = None ->
  ∃ questions,
    build_question_set (normalize (arg_summary args)) = Ok questions
    ∧ NoDup (map key questions)
    ∧ main json_loads args w =
      match ask_questions questions
              (World (stdin w) (stdout w ++ [INTRO +:+ PyStr.nl])) with
      | (w', Ok answers) =>
          (World (stdin w')
             (stdout w' ++ report (compose_prompt (normalize (arg_summary args))
                                     (final_answers questions answers))),
           Ok tt)
      | (w', Raise e) => (w', Raise e)
      end.
Proof.
  intros Hs Hp. apply truthy_true in Hs.
  eexists. split; [apply build_question_set_eq|].
  split; [eapply resolved_keys_NoDup, build_question_set_eq|].
  unfold main. cbv zeta. rewrite Hs, Hp, build_question_set_eq.
  cbv [negb bind lift print]. cbn [stdin stdout]. unfold INTRO.
  destruct (ask_questions _ _) as [w' [answers|e]]; [|reflexivity].
  cbn [stdin stdout]. unfold report. rewrite <- !app_assoc. reflexivity.
Qed.

End Interactive.

Lemma Forall_zip_with_all {A B C} (P : C -> Prop) (f : A -> B -> C) l k :
  (∀ a b, P (f a b)) -> Forall P (zip_with f l k).
Proof.
  intros H. revert k. induction l as [|a l IH]; intros [|b k]; cbn; constructor; auto.
Qed.

(** X12. An interactive run: with a summary that is not blank, no payload
    (or the empty one) and one typed line for each resolved question,
    [main] returns.  It reads exactly those lines, prints the introduction,
    the questions and the report, and every value of the answer set it
    composes from is a non-empty string in normal form: the normalised
    typed line, or "Not specified" for a blank line. *)
Theorem interactive_run_completes
    (json_loads : string -> json_result) (args : Namespace)
    (lines rest out : list string) :
  normalize (arg_summary args) ≠ EmptyString ->
  batch_payload args = None ->
  length lines = 10 + 2 * length (matched_items (normalize (arg_summary args))) ->
  ∃ questions final,
    build_question_set (normalize (arg_summary args)) = Ok questions
    ∧ main json_loads args (World (lines ++ rest) out)
      = (World rest
           (out ++ [INTRO +:+ PyStr.nl] ++ transcript questions
            ++ report (compose_prompt (normalize (arg_summary args)) final)),
         Ok tt)
    ∧ final = zip_with (λ q line, (key q, normalize (typed_answer line)))
                questions lines
    ∧ Forall (λ item, item.2 ≠ EmptyString ∧ canonical item.2 = true) final.
Proof.
  intros Hs Hp Hlen.
  destruct (main_asks json_loads args (World (lines ++ rest) out) Hs Hp)
    as (questions & Hq & Hnd & Hrun).
  rewrite <- (resolved_length _ _ Hq) in Hlen.
  cbn [stdin stdout] in Hrun. unfold ask_questions in Hrun.
  rewrite (ask_questions_from_run _ _ _ _ _ Hlen) in Hrun. cbn [stdin stdout] in Hrun.
  rewrite (final_answers_collect _ _ Hnd Hlen) in Hrun.
  eexists questions, _. split; [exact Hq|]. split.
  - rewrite Hrun. rewrite <- !app_assoc. reflexivity.
  - split; [reflexivity|]. apply Forall_zip_with_all. intros q line. cbn [snd]. split.
    + apply typed_answer_cases.
    + apply normalize_canonical.
Qed.

Lemma interactive_run_completes_witness :
  let args := mkArgs "Plan a picnic" None in
  let lines := Sample.lines 10 "  by  the lake " in
  ∃ questions final,
    build_question_set (normalize (arg_summary args)) = Ok questions
    ∧ main Sample.json_loads args (World (lines ++ ["left over"]) [])
      = (World ["left over"]
           ([] ++ [INTRO +:+ PyStr.nl] ++ transcript questions
            ++ report (compose_prompt (normalize (arg_summary args)) final)),
         Ok tt)
    ∧ final = zip_with (λ q line, (key q, normalize (typed_answer line)))
                questions lines
    ∧ Forall (λ item, item.2 ≠ EmptyString ∧ canonical item.2 = true) final.
Proof.
  cbv zeta.
  apply (interactive_run_completes Sample.json_loads (mkArgs "Plan a picnic" None)
           (Sample.lines 10 "  by  the lake ") ["left over"] []).
  - vm_compute. discriminate.
  - reflexivity.
  - vm_compute. reflexivity.
Defined.

(** X13. An interactive run that runs out of input: with fewer typed lines
    than resolved questions [main] ends with [EOFError], exit status 1.
    It has printed the introduction and asked the questions up to the first
    one without a line; neither the banner nor a prompt is written. *)
Theorem interactive_run_end_of_input
    (json_loads : string -> json_result) (args : Namespace)
    (lines out : list string) :
  normalize (arg_summary args) ≠ EmptyString ->
  batch_payload args = None ->
  length lines < 10 + 2 * length (matched_items (normalize (arg_summary args))) ->
  ∃ questions,
    build_question_set (normalize (arg_summary args)) = Ok questions
    ∧ main json_loads args (World lines out)
      = (World []
           (out ++ [INTRO +:+ PyStr.nl]
            ++ transcript (take (S (length lines)) questions)),
         Raise EOFError)
    ∧ exit_status (main json_loads args (World lines out)).2 = 1.
Proof.
  intros Hs Hp Hlen.
  destruct (main_asks json_loads args (World lines out) Hs Hp)
    as (questions & Hq & _ & Hrun).
  rewrite <- (resolved_length _ _ Hq) in Hlen.
  cbn [stdin stdout] in Hrun. unfold ask_questions in Hrun.
  rewrite (ask_questions_from_short _ _ _ _ Hlen) in Hrun.
  exists questions. split; [exact Hq|]. rewrite Hrun, <- app_assoc.
  split; reflexivity.
Qed.

Lemma interactive_run_end_of_input_witness :
  let args := mkArgs "Plan a picnic" (Some EmptyString) in
  ∃ questions,
    build_question_set (normalize (arg_summary args)) = Ok questions
    ∧ main Sample.json_loads args (World ["a nice day out"] [])
      = (World []
           ([] ++ [INTRO +:+ PyStr.nl] ++ transcript (take 2 questions)),
         Raise EOFError)
    ∧ exit_status (main Sample.json_loads args (World ["a nice day out"] [])).2 = 1.
Proof.
  cbv zeta.
  apply (interactive_run_end_of_input Sample.json_loads
           (mkArgs "Plan a picnic" (Some EmptyString)) ["a nice day out"] []).
  - vm_compute. discriminate.
  - reflexivity.
  - vm_compute. lia.
Defined.



(** X15. The answer set of [main], for any list of questions, repeated keys
    included: its keys are the question keys in the order of their first
    occurrences, each once; looking up a question key gives the normalised
    text of the payload's value, or "Not specified" when the payload lacks
    the key; every value is in normal form; no other key is present. *)
Theorem final_answers_lookup
    (questions : list Question) (answers : gmap string json_value) :
  (final_answers questions answers).*1 = dedup_keep_first (map key questions)
  ∧ NoDup (final_answers questions answers).*1
  ∧ ∀ k,
      dict_get (final_answers questions answers) k
      = (if decide (k ∈ map key questions)
         then Some (match answers !! k with
                    | Some v => normalize (py_str v)
                    | None => NOT_SPECIFIED
                    end)
         else None)
      ∧ ∀ v, dict_get (final_answers questions answers) k = Some v ->
             canonical v = true.
Proof.
  unfold final_answers.
  pose proof (fold_dict_set_keys (answer_for answers) questions []) as Hkeys.
  cbn [fmap list_fmap app] in Hkeys.
  rewrite filter_all in Hkeys by (intros x; apply not_elem_of_nil).
  split; [exact Hkeys|]. split; [rewrite Hkeys; apply dedup_keep_first_NoDup|].
  intros k. rewrite (fold_dict_set_get (answer_for answers)). cbn [dict_get].
  destruct (decide (k ∈ map key questions)).
  - split.
    + f_equal. unfold answer_for. destruct (answers !! k); reflexivity.
    + intros v [= <-]. apply normalize_canonical.
  - split; [reflexivity | discriminate].
Qed.

Section Modes.




End Modes.



(** X17. What the [try] block of [main] lets through.  In a batch run with
    a summary that is not blank, a payload that decodes to something else
    than a dict ends the run with the [ValueError]
    "answers-json must decode to an object", and an exception of the decoder
    other than [json.JSONDecodeError] ends it with that exception: the run
    ends with the exception itself, not with the [SystemExit] message.
    Nothing is written, no input is read, and the exit status is 1. *)
Theorem uncaught_payload_errors
    (json_loads : string -> json_result) (args : Namespace)
    (payload : string) (e : exn) (w : world) :
  normalize (arg_summary args) ≠ EmptyString ->
  arg_answers_json args = Some payload ->
  payload ≠ EmptyString ->
  json_loads payload = Decoded JNotObject
    ∧ e = ValueError "answers-json must decode to an object"
  ∨ json_loads payload = Raised e ->
  failed_with e w (main json_loads args w).
Proof.
  intros Hs Hp Hne Hcase.
  destruct (main_batch json_loads args payload w Hs
              (batch_payload_Some _ _ Hp Hne)) as (questions & _ & _ & Hrun).
  unfold failed_with. rewrite Hrun.
  destruct Hcase as [[-> ->]| ->]; split; reflexivity.
Qed.

Lemma uncaught_payload_errors_witness :
  let args := mkArgs "Build a web API for tracking tasks" (Some "[1, 2]") in
  let w := World (Sample.lines 3 "soon") [] in
  failed_with (ValueError "answers-json must decode to an object") w
    (main Sample.json_loads args w).
Proof.
  cbv zeta.
  apply (uncaught_payload_errors Sample.json_loads
           (mkArgs "Build a web API for tracking tasks" (Some "[1, 2]"))
           "[1, 2]" (ValueError "answers-json must decode to an object")
           (World (Sample.lines 3 "soon") [])).
  - vm_compute. discriminate.
  - reflexivity.
  - discriminate.
  - left. split; [vm_compute; reflexivity | reflexivity].
Defined.
